(** * paper_indexer: a shallow embedding of the ingestion and query code

    Source files embedded here:
    - [src/paper_indexer/index.py]      get_point_id, _upsert_chunk, the
                                         _process_* batching loops, index
    - [src/paper_indexer/utils.py]      retry_request
    - [src/paper_indexer/fetchers/*.py] the three fetch_papers loops
    - [src/paper_indexer/query.py]      the filter construction of query

    Python [str] values are modelled as lists of code points ([list Z]),
    bytes as lists of [Z] in 0..255, Python exceptions as the constructors
    of [exn]. *)

From Stdlib Require Import ZArith Lia List String Ascii Bool QArith Qabs Qminmax.
From stdpp Require Import base gmap list.

Import ListNotations.
Open Scope Z_scope.

(** Exceptions raised by the embedded code. *)
Inductive exn :=
| UnicodeEncodeError
| ValueError (msg : string)
| HTTPError (code : Z)      (** httpx.HTTPError, including timeouts *)
| OverflowError             (** an [int] too large to convert to [float] *)
| ValidationError (model : string)  (** pydantic's ValidationError (a ValueError) *)
| OtherError (code : Z).    (** any other exception that is not an httpx.HTTPError *)

(** A Python computation either returns a value or raises. *)
Inductive result (A : Type) :=
| Ok (a : A)
| Raise (e : exn).
Arguments Ok {A} a.
Arguments Raise {A} e.

(* ------------------------------------------------------------------ *)
(** ** get_point_id  (index.py, lines 18-20)

<<
def get_point_id(paper_id: str) -> int:
    md5 = hashlib.md5(paper_id.encode()).hexdigest()
    return int(md5[:16], 16) % (2**63 - 1)
>> *)
Module PointId.

(** A Python [str] holds code points in 0..0x10FFFF (surrogates included). *)
Definition py_str (s : list Z) : Prop := Forall (fun c => 0 <= c <= 1114111) s.

Definition is_surrogate (c : Z) : bool := (55296 <=? c) && (c <=? 57343).

(** [str.encode()] with the default codec utf-8 and errors='strict'. *)
Definition utf8_char (c : Z) : option (list Z) :=
  if c <? 0 then None
  else if c <? 128 then Some [c]
  else if c <? 2048 then
    Some [Z.lor 192 (Z.shiftr c 6); Z.lor 128 (Z.land c 63)]
  else if c <? 65536 then
    if is_surrogate c then None
    else Some [Z.lor 224 (Z.shiftr c 12);
               Z.lor 128 (Z.land (Z.shiftr c 6) 63);
               Z.lor 128 (Z.land c 63)]
  else if c <=? 1114111 then
    Some [Z.lor 240 (Z.shiftr c 18);
          Z.lor 128 (Z.land (Z.shiftr c 12) 63);
          Z.lor 128 (Z.land (Z.shiftr c 6) 63);
          Z.lor 128 (Z.land c 63)]
  else None.

Fixpoint encode (s : list Z) : result (list Z) :=
  match s with
  | [] => Ok []
  | c :: s' =>
      match utf8_char c, encode s' with
      | Some bs, Ok rest => Ok (bs ++ rest)
      | None, _ => Raise UnicodeEncodeError
      | _, Raise e => Raise e
      end
  end.

(** *** MD5 (RFC 1321), on 32-bit words kept in [0, 2^32) *)

Definition w32 (x : Z) : Z := x mod 2 ^ 32.
Definition not32 (x : Z) : Z := Z.lxor x (Z.ones 32).
Definition rotl32 (x c : Z) : Z :=
  Z.land (Z.lor (Z.shiftl x c) (Z.shiftr x (32 - c))) (Z.ones 32).

Definition md5_K : list Z :=
  [3614090360; 3905402710; 606105819; 3250441966; 4118548399; 1200080426;
   2821735955; 4249261313; 1770035416; 2336552879; 4294925233; 2304563134;
   1804603682; 4254626195; 2792965006; 1236535329; 4129170786; 3225465664;
   643717713; 3921069994; 3593408605; 38016083; 3634488961; 3889429448;
   568446438; 3275163606; 4107603335; 1163531501; 2850285829; 4243563512;
   1735328473; 2368359562; 4294588738; 2272392833; 1839030562; 4259657740;
   2763975236; 1272893353; 4139469664; 3200236656; 681279174; 3936430074;
   3572445317; 76029189; 3654602809; 3873151461; 530742520; 3299628645;
   4096336452; 1126891415; 2878612391; 4237533241; 1700485571; 2399980690;
   4293915773; 2240044497; 1873313359; 4264355552; 2734768916; 1309151649;
   4149444226; 3174756917; 718787259; 3951481745].

Definition md5_S : list Z :=
  [7; 12; 17; 22; 7; 12; 17; 22; 7; 12; 17; 22; 7; 12; 17; 22;
   5; 9; 14; 20; 5; 9; 14; 20; 5; 9; 14; 20; 5; 9; 14; 20;
   4; 11; 16; 23; 4; 11; 16; 23; 4; 11; 16; 23; 4; 11; 16; 23;
   6; 10; 15; 21; 6; 10; 15; 21; 6; 10; 15; 21; 6; 10; 15; 21].

(** [n] bytes of [x], least significant first. *)
Fixpoint le_bytes (n : nat) (x : Z) : list Z :=
  match n with
  | O => []
  | S n' => Z.land x 255 :: le_bytes n' (Z.shiftr x 8)
  end.

Fixpoint le_word (bs : list Z) : Z :=
  match bs with
  | [] => 0
  | b :: bs' => b + 256 * le_word bs'
  end.

(** Padding: 0x80, zeros up to 56 mod 64, then the bit length (64 bits, LE). *)
Definition md5_pad (msg : list Z) : list Z :=
  let n := Z.of_nat (length msg) in
  msg ++ [128] ++ repeat 0 (Z.to_nat ((55 - n) mod 64))
      ++ le_bytes 8 ((8 * n) mod 2 ^ 64).

Fixpoint chunks (fuel : nat) (k : nat) (l : list Z) : list (list Z) :=
  match fuel with
  | O => []
  | S fuel' =>
      match l with
      | [] => []
      | _ => firstn k l :: chunks fuel' k (skipn k l)
      end
  end.

Definition block_words (blk : list Z) : list Z :=
  map le_word (chunks 16 4 blk).

Definition md5_step (m : list Z) (st : Z * Z * Z * Z) (i : nat) : Z * Z * Z * Z :=
  let '(a, b, c, d) := st in
  let '(f, g) :=
    if (i <? 16)%nat then (Z.lor (Z.land b c) (Z.land (not32 b) d), i)
    else if (i <? 32)%nat then (Z.lor (Z.land d b) (Z.land (not32 d) c), (5 * i + 1) mod 16)%nat
    else if (i <? 48)%nat then (Z.lxor b (Z.lxor c d), (3 * i + 5) mod 16)%nat
    else (Z.lxor c (Z.lor b (not32 d)), (7 * i) mod 16)%nat in
  let f := w32 (f + a + nth i md5_K 0 + nth g m 0) in
  (d, w32 (b + rotl32 f (nth i md5_S 0)), b, c).

Definition md5_block (h : Z * Z * Z * Z) (blk : list Z) : Z * Z * Z * Z :=
  let m := block_words blk in
  let '(a, b, c, d) := fold_left (md5_step m) (seq 0 64) h in
  let '(h0, h1, h2, h3) := h in
  (w32 (h0 + a), w32 (h1 + b), w32 (h2 + c), w32 (h3 + d)).

Definition md5_init : Z * Z * Z * Z := (1732584193, 4023233417, 2562383102, 271733878).

(** [hashlib.md5(msg).digest()]: 16 bytes. *)
Definition md5 (msg : list Z) : list Z :=
  let p := md5_pad msg in
  let '(h0, h1, h2, h3) := fold_left md5_block (chunks (length p) 64 p) md5_init in
  le_bytes 4 h0 ++ le_bytes 4 h1 ++ le_bytes 4 h2 ++ le_bytes 4 h3.

(** *** hexdigest and int(_, 16) *)

Definition hex_char (n : Z) : ascii :=
  if n <? 10 then ascii_of_nat (48 + Z.to_nat n)
  else ascii_of_nat (87 + Z.to_nat n).

Definition hexdigest (digest : list Z) : list ascii :=
  flat_map (fun b => [hex_char (Z.shiftr b 4); hex_char (Z.land b 15)]) digest.

Definition hex_value (ch : ascii) : option Z :=
  let n := Z.of_nat (nat_of_ascii ch) in
  if (48 <=? n) && (n <=? 57) then Some (n - 48)
  else if (97 <=? n) && (n <=? 102) then Some (n - 87)
  else if (65 <=? n) && (n <=? 70) then Some (n - 55)
  else None.

Fixpoint parse_hex_acc (acc : Z) (cs : list ascii) : option Z :=
  match cs with
  | [] => Some acc
  | ch :: cs' =>
      match hex_value ch with
      | Some v => parse_hex_acc (16 * acc + v) cs'
      | None => None
      end
  end.

(** [int(s, 16)]; an empty or malformed string raises ValueError. *)
Definition int16 (cs : list ascii) : result Z :=
  match cs with
  | [] => Raise (ValueError "invalid literal for int() with base 16")
  | _ => match parse_hex_acc 0 cs with
         | Some v => Ok v
         | None => Raise (ValueError "invalid literal for int() with base 16")
         end
  end.

Definition get_point_id (paper_id : list Z) : result Z :=
  match encode paper_id with
  | Raise e => Raise e
  | Ok bs =>
      let h := hexdigest (md5 bs) in
      match int16 (firstn 16 h) with
      | Raise e => Raise e
      | Ok v => Ok (v mod (2 ^ 63 - 1))
      end
  end.

End PointId.

(* ------------------------------------------------------------------ *)
(** ** The ingestion loop  (index.py, lines 23-40 and 88-143)

<<
def _upsert_chunk(client, embedder, chunk):
    if not chunk:
        return
    embeddings = embedder.encode_documents(chunk)
    client.upsert(collection_name=QDRANT_COLLECTION_NAME,
        points=[PointStruct(id=get_point_id(paper["paper_id"]),
                            vector=embedding.tolist(), payload=paper)
                for paper, embedding in zip(chunk, embeddings)])

def _process_arxiv(client, embedder, ...):      # same loop in
    fetcher = ArxivFetcher()                     # _process_biorxiv_medrxiv
    chunk = []                                   # and _process_chemrxiv
    for paper in fetcher.fetch_papers(...):
        chunk.append(paper.model_dump())
        if len(chunk) >= CHUNK_SIZE:
            _upsert_chunk(client, embedder, chunk)
            chunk = []
    if chunk:
        _upsert_chunk(client, embedder, chunk)
        chunk = []
>>

    The Qdrant collection is a map from point id to (vector, payload);
    [client.upsert] inserts every point of the call, a later point of the
    same id overwriting an earlier one. The world also logs every
    [client.upsert] call. The embedder is a function of the chunk. *)
Module Ingest.
Import PointId.

Definition CHUNK_SIZE : nat := 100.

Section Pipeline.
(** A record as dumped by [paper.model_dump()], with its "paper_id" key. *)
Variable Paper : Type.
Variable paper_id : Paper -> list Z.
(** Embedding vectors and [embedder.encode_documents]. *)
Variable Vec : Type.
Variable encode_documents : list Paper -> list Vec.

(** [PointStruct(id=..., vector=..., payload=...)] *)
Definition point : Type := (Z * Vec * Paper)%type.

Record world := mk_world {
  store : gmap Z (Vec * Paper);
  upsert_log : list (list point)
}.

(** State and exception monad over the world. *)
Definition M (A : Type) : Type := world -> world * result A.

Definition ret {A} (a : A) : M A := fun w => (w, Ok a).
Definition raise {A} (e : exn) : M A := fun w => (w, Raise e).
Definition bind {A B} (m : M A) (k : A -> M B) : M B :=
  fun w => match m w with
           | (w', Ok a) => k a w'
           | (w', Raise e) => (w', Raise e)
           end.

Notation "x <- m ;; k" := (bind m (fun x => k)) (at level 100, m at next level, right associativity).

Definition insert_points (pts : list point) (m : gmap Z (Vec * Paper)) : gmap Z (Vec * Paper) :=
  fold_left (fun acc '(i, v, p) => <[i := (v, p)]> acc) pts m.

(** [client.upsert(points=pts)]: overwrite by id. *)
Definition client_upsert (pts : list point) : M unit :=
  fun w => (mk_world (insert_points pts (store w)) (upsert_log w ++ [pts]), Ok tt).

(** The list comprehension: each id is computed in order, the first
    exception aborts it; [zip] stops at the shorter list. *)
Fixpoint make_points (pe : list (Paper * Vec)) : result (list point) :=
  match pe with
  | [] => Ok []
  | (p, v) :: pe' =>
      match get_point_id (paper_id p) with
      | Raise e => Raise e
      | Ok i => match make_points pe' with
                | Raise e => Raise e
                | Ok pts => Ok ((i, v, p) :: pts)
                end
      end
  end.

Definition upsert_chunk (chunk : list Paper) : M unit :=
  match chunk with
  | [] => ret tt
  | _ =>
      let embeddings := encode_documents chunk in
      match make_points (combine chunk embeddings) with
      | Raise e => raise e
      | Ok pts => client_upsert pts
      end
  end.

(** The [for] loop, with the current [chunk]. *)
Fixpoint process_loop (chunk : list Paper) (papers : list Paper) : M unit :=
  match papers with
  | [] => match chunk with
          | [] => ret tt
          | _ => upsert_chunk chunk
          end
  | p :: rest =>
      let chunk := chunk ++ [p] in
      if (CHUNK_SIZE <=? length chunk)%nat
      then _ <- upsert_chunk chunk ;; process_loop [] rest
      else process_loop chunk rest
  end.

(** [_process_*] on the stream of records its fetcher yields. *)
Definition process (papers : list Paper) : M unit := process_loop [] papers.

End Pipeline.
End Ingest.

(* ------------------------------------------------------------------ *)
(** ** retry_request  (utils.py, lines 7-29)

<<
async def retry_request(client, method, url, max_retries=3, backoff_factor=2.0, **kwargs):
    last_exception = None
    for attempt in range(max_retries):
        try:
            response = await client.request(method, url, **kwargs)
            response.raise_for_status()
            return response
        except (httpx.HTTPError, httpx.TimeoutException) as e:
            last_exception = e
            if attempt < max_retries - 1:
                wait_time = backoff_factor * (2**attempt)
                await asyncio.sleep(wait_time)
            else:
                raise last_exception
    raise last_exception or httpx.HTTPError("Request failed")
>>

    What [client.request] does at the [i]-th attempt is [server i]: a
    response (status and body) or an exception. [raise_for_status] raises
    an HTTPStatusError (an httpx.HTTPError, here [HTTPError status]) unless
    the status is 2xx. [httpx.TimeoutException] is a subclass of
    [httpx.HTTPError], so [HTTPError] covers both caught classes. The
    synthetic [httpx.HTTPError("Request failed")] is [HTTPError 0].

    [backoff_factor] is a finite float, given as the rational it denotes.
    [backoff_factor * (2**attempt)] first converts the int [2**attempt] to a
    float, which raises OverflowError from [attempt = 1024] on; below that
    the conversion is exact, and so is the product (a float times a power
    of two), unless its magnitude reaches 2^1024, where it becomes an
    infinity. [asyncio.sleep] returns at once for a delay [<= 0] (-inf
    included) and never returns for +inf. *)
Module Retry.

Record response := mk_response { status : Z; body : Z }.

Inductive outcome :=
| Resp (r : response)
| Exc (e : exn).

(** A Python float: finite, or one of the two infinities. *)
Inductive pyfloat :=
| Fin (q : Q)
| PosInf
| NegInf.

Inductive event :=
| Request (attempt : nat)
| Sleep (seconds : pyfloat).

Definition is_success (st : Z) : bool := (200 <=? st) && (st <? 300).

Definition caught (e : exn) : bool :=
  match e with HTTPError _ => true | _ => false end.

(** [wait_time = backoff_factor * (2**attempt)] *)
Definition wait_time (backoff_factor : Q) (attempt : nat) : result pyfloat :=
  if (1024 <=? attempt)%nat then Raise OverflowError
  else
    let q := (backoff_factor * inject_Z (2 ^ Z.of_nat attempt))%Q in
    if Qle_bool (inject_Z (2 ^ 1024)) (Qabs q)
    then Ok (if Qle_bool 0 q then PosInf else NegInf)
    else Ok (Fin q).

Section Loop.
Variable server : nat -> outcome.
Variable max_retries : Z.
Variable backoff_factor : Q.

(** The trace of events and how the call ends: [Some r] when it returns
    or raises, [None] when it never returns (asleep for +inf seconds). *)
Fixpoint retry_loop (k : nat) (attempt : nat) (last_exception : option exn)
  : list event * option (result response) :=
  match k with
  | O => ([], Some match last_exception with
                   | Some e => Raise e
                   | None => Raise (HTTPError 0)
                   end)
  | S k' =>
      let on_error (e : exn) :=
        if Z.of_nat attempt <? max_retries - 1 then
          match wait_time backoff_factor attempt with
          | Raise e' => ([Request attempt], Some (Raise e'))
          | Ok PosInf => ([Request attempt; Sleep PosInf], None)
          | Ok w =>
              let '(tr, r) := retry_loop k' (S attempt) (Some e) in
              (Request attempt :: Sleep w :: tr, r)
          end
        else ([Request attempt], Some (Raise e)) in
      match server attempt with
      | Resp resp =>
          if is_success (status resp) then ([Request attempt], Some (Ok resp))
          else on_error (HTTPError (status resp))
      | Exc e => if caught e then on_error e else ([Request attempt], Some (Raise e))
      end
  end.

(** [for attempt in range(max_retries)]: no iteration when [max_retries <= 0]. *)
Definition retry_request : list event * option (result response) :=
  retry_loop (Z.to_nat max_retries) 0 None.

End Loop.
End Retry.

(* ------------------------------------------------------------------ *)
(** ** ArxivFetcher.fetch_papers  (fetchers/arxiv.py, lines 42-75)

<<
        parsed_start_date = datetime.fromisoformat(start_date) if start_date else None
        parsed_end_date = datetime.fromisoformat(end_date) if end_date else None
        count = 0
        with open(full_path) as r:
            for line in tqdm(r, desc="Processing ArXiv papers"):
                record = json.loads(line)
                paper = self._parse_record(record)
                if parsed_start_date:
                    paper_update_date = datetime.fromisoformat(paper.update_date)
                    if paper_update_date < parsed_start_date:
                        continue
                if parsed_end_date:
                    paper_update_date = datetime.fromisoformat(paper.update_date)
                    if paper_update_date > parsed_end_date:
                        continue
                if category and category not in paper.categories:
                    continue
                yield paper
                count += 1
                if count >= limit:
                    break
>>

    The file is the list of its lines, each given as the record that
    [self._parse_record(json.loads(line))] makes of it; update dates are
    the datetimes [fromisoformat] reads from "YYYY-MM-DD" strings, ordered
    as datetimes are (lexicographically on year, month, day). An empty
    start_date / end_date string is falsy, like None, so both are an
    absent bound; [category] is kept as the Python value, where "" is
    falsy too. The generator is the list of records it yields. *)
Module Arxiv.

Record date := mk_date { year : Z; month : Z; day : Z }.

Definition date_lt (d1 d2 : date) : bool :=
  (year d1 <? year d2) ||
  ((year d1 =? year d2) &&
   ((month d1 <? month d2) || ((month d1 =? month d2) && (day d1 <? day d2)))).

Record paper := mk_paper {
  paper_id : string;
  update_date : date;
  categories : list string
}.

Definition truthy (s : option string) : bool :=
  match s with
  | Some c => negb (String.eqb c "")
  | None => false
  end.

Definition in_categories (c : string) (cs : list string) : bool :=
  existsb (String.eqb c) cs.

Section Fetch.
Variable parsed_start_date : option date.
Variable parsed_end_date : option date.
Variable category : option string.
Variable limit : Z.

(** The three [continue] tests. *)
Definition passes (p : paper) : bool :=
  match parsed_start_date with
  | Some s => negb (date_lt (update_date p) s)
  | None => true
  end &&
  match parsed_end_date with
  | Some e => negb (date_lt e (update_date p))
  | None => true
  end &&
  match category with
  | Some c => if truthy category then in_categories c (categories p) else true
  | None => true
  end.

Fixpoint scan (count : Z) (lines : list paper) : list paper :=
  match lines with
  | [] => []
  | p :: rest =>
      if passes p then
        p :: (if limit <=? count + 1 then [] else scan (count + 1) rest)
      else scan count rest
  end.

Definition fetch_papers (lines : list paper) : list paper := scan 0 lines.

End Fetch.
End Arxiv.

(* ------------------------------------------------------------------ *)
(** ** ChemrxivFetcher.fetch_papers  (fetchers/chemrxiv.py, lines 57-104)

<<
        cursor = 0
        ...
                while cursor < limit:
                    url = f"{self.base_url}/items"
                    params = {"limit": min(page_size, limit - cursor), "skip": cursor}
                    if search_term:
                        params["term"] = search_term
                    try:
                        response = await retry_request(client=client, method="GET", url=url,
                                                       params=params, ...)
                        data = response.json()
                    except Exception as e:
                        print(f"Error fetching ChemRxiv data: {e}")
                        break
                    items = data.get("itemHits", [])
                    if not items:
                        break
                    for item in items:
                        yield self._parse_record(item)
                        pbar.update(1)
                    cursor += len(items)
                    if len(items) < page_size:
                        break
                    await asyncio.sleep(self.rate_limit_delay)
>>

    The server's answer to the [n]-th request, sent with the parameters
    [limit] and [skip], is [server n limit skip]: an exception (from
    retry_request or response.json(), caught and ending the loop) or the
    [itemHits] array ([[]] when absent). A [while] loop is a fixpoint on a
    fuel argument; [finished = false] means the fuel ran out first. The
    yielded values are [_parse_record] of the items, here the items. *)
Module Chemrxiv.

Inductive page (Item : Type) :=
| PageError
| Page (items : list Item).
Arguments PageError {Item}.
Arguments Page {Item} items.

Section Fetch.
Variable Item : Type.
Variable server : nat -> Z -> Z -> page Item.
Variable limit : Z.
Variable page_size : Z.

(** Requests sent as (limit, skip), items yielded, finished. *)
Fixpoint fetch_loop (fuel : nat) (n : nat) (cursor : Z)
  : list (Z * Z) * list Item * bool :=
  match fuel with
  | O => ([], [], false)
  | S fuel' =>
      if cursor <? limit then
        let params := (Z.min page_size (limit - cursor), cursor) in
        match server n (fst params) (snd params) with
        | PageError => ([params], [], true)
        | Page [] => ([params], [], true)
        | Page items =>
            let cursor := cursor + Z.of_nat (length items) in
            if Z.of_nat (length items) <? page_size then ([params], items, true)
            else
              let '(reqs, ys, fin) := fetch_loop fuel' (S n) cursor in
              (params :: reqs, items ++ ys, fin)
        end
      else ([], [], true)
  end.

Definition fetch_papers (fuel : nat) : list (Z * Z) * list Item * bool :=
  fetch_loop fuel 0 0.

End Fetch.
End Chemrxiv.

(* ------------------------------------------------------------------ *)
(** ** BiorxivFetcher.fetch_papers  (fetchers/biorxiv.py, lines 51-97)

<<
        cursor = 0
        ...
                while True:
                    url = f"{self.base_url}/pubs/{self.server}/{start_date}/{end_date}/{cursor}"
                    ...
                    try:
                        response = await retry_request(client=client, method="GET", url=url, ...)
                        data = response.json()
                    except Exception as e:
                        print(f"Error fetching {self.server} data: {e}")
                        break
                    collection = data.get("collection", [])
                    if not collection:
                        break
                    for paper in collection:
                        yield self._parse_record(paper, self.server)
                        pbar.update(1)
                    messages = data.get("messages", [])
                    cursor_message = next(
                        (m for m in messages if m.get("type") == "cursor_value"), None)
                    if not cursor_message:
                        break
                    cursor = int(cursor_message.get("cursor", 0))
                    await asyncio.sleep(self.rate_limit_delay)
>>

    The answer to the [n]-th request, for the page at [cursor], is
    [server n cursor]: an exception (caught, ending the loop) or the
    [collection] and [messages] arrays ([[]] when absent). A message has
    its "type" entry (if any) and its "cursor" entry as an int (0 when
    absent); a message dict that holds a "type" is non-empty, so truthy.
    The [while True] loop is a fixpoint on fuel ([finished = false]: the
    fuel ran out). *)
Module Biorxiv.

Record message := mk_message { msg_type : option string; msg_cursor : Z }.

Inductive answer (Item : Type) :=
| AnswerError
| Answer (collection : list Item) (messages : list message).
Arguments AnswerError {Item}.
Arguments Answer {Item} collection messages.

Definition is_cursor_message (m : message) : bool :=
  match msg_type m with
  | Some t => String.eqb t "cursor_value"
  | None => false
  end.

Section Fetch.
Variable Item : Type.
Variable server : nat -> Z -> answer Item.

(** Cursors requested, items yielded, finished. *)
Fixpoint fetch_loop (fuel : nat) (n : nat) (cursor : Z) : list Z * list Item * bool :=
  match fuel with
  | O => ([], [], false)
  | S fuel' =>
      match server n cursor with
      | AnswerError => ([cursor], [], true)
      | Answer [] _ => ([cursor], [], true)
      | Answer collection messages =>
          match find is_cursor_message messages with
          | None => ([cursor], collection, true)
          | Some m =>
              let '(cs, ys, fin) := fetch_loop fuel' (S n) (msg_cursor m) in
              (cursor :: cs, collection ++ ys, fin)
          end
      end
  end.

Definition fetch_papers (fuel : nat) : list Z * list Item * bool := fetch_loop fuel 0 0.

End Fetch.
End Biorxiv.

(* ------------------------------------------------------------------ *)
(** ** The filter built by query  (query.py, lines 34-69)

<<
    must_conditions = []
    if arxiv_id:
        paper_id = arxiv_id
    if arxiv_categories:
        categories = arxiv_categories
    if paper_id:
        must_conditions.append(FieldCondition(key="paper_id", match=MatchValue(value=paper_id)))
    if source:
        must_conditions.append(FieldCondition(key="source", match=MatchValue(value=source)))
    if authors:
        must_conditions.append(FieldCondition(key="authors", match=MatchText(text=authors)))
    if title:
        must_conditions.append(FieldCondition(key="title", match=MatchText(text=title)))
    if abstract:
        must_conditions.append(FieldCondition(key="abstract", match=MatchText(text=abstract)))
    if min_update_date or max_update_date:
        range_params = {}
        if min_update_date:
            range_params["gte"] = min_update_date
        if max_update_date:
            range_params["lte"] = max_update_date
        must_conditions.append(
            FieldCondition(key="update_date", range=DatetimeRange( **range_params)))
    if categories:
        must_conditions.append(FieldCondition(key="categories", match=MatchAny(any=categories)))
    query_filter = Filter(must=must_conditions) if must_conditions else None
>>

    [None] and the falsy values [""] and [[]] are all "not given" to the
    [if] tests. [DatetimeRange( **range_params)] is a pydantic model: it
    raises a ValidationError unless each given bound is a string pydantic
    reads as a datetime or a date ([datetime_valid], left abstract); the
    other models take the strings and string lists as they are. The store's side (what a filter selects) is modelled in
    [QueryFacts], over Qdrant's full-text and datetime comparisons left
    abstract. *)
Module Query.

Record query_args := mk_args {
  paper_id : option string;
  source : option string;
  authors : option string;
  title : option string;
  abstract : option string;
  min_update_date : option string;
  max_update_date : option string;
  categories : option (list string);
  arxiv_id : option string;
  arxiv_categories : option (list string)
}.

Definition no_args : query_args :=
  mk_args None None None None None None None None None None.

Inductive field_match :=
| MatchValue (value : string)
| MatchText (text : string)
| MatchAny (any : list string).

Inductive field_condition :=
| FieldMatch (key : string) (m : field_match)
| FieldRange (key : string) (gte : option string) (lte : option string).

(** [Filter(must=...)] *)
Record filter := Filter { must : list field_condition }.

(** The value a truthy [str] argument holds. *)
Definition given (o : option string) : option string :=
  match o with
  | Some s => if String.eqb s "" then None else Some s
  | None => None
  end.

Definition given_list (o : option (list string)) : option (list string) :=
  match o with
  | Some [] | None => None
  | Some l => Some l
  end.

Definition truthy (o : option string) : bool :=
  match given o with Some _ => true | None => false end.

Definition truthy_list (o : option (list string)) : bool :=
  match given_list o with Some _ => true | None => false end.

Definition cond_if (o : option string) (mk : string -> field_condition) : list field_condition :=
  match given o with Some v => [mk v] | None => [] end.

Section Build.
Variable datetime_valid : string -> bool.

(** An absent bound is left out of [range_params]; a given one must pass
    pydantic's validation. *)
Definition bound_valid (o : option string) : bool :=
  match given o with Some v => datetime_valid v | None => true end.

Definition build_query_filter (a : query_args) : result (option filter) :=
  let paper_id := if truthy (arxiv_id a) then arxiv_id a else paper_id a in
  let categories := if truthy_list (arxiv_categories a) then arxiv_categories a else categories a in
  let range_condition : result (list field_condition) :=
    if truthy (min_update_date a) || truthy (max_update_date a) then
      if bound_valid (min_update_date a) && bound_valid (max_update_date a)
      then Ok [FieldRange "update_date" (given (min_update_date a)) (given (max_update_date a))]
      else Raise (ValidationError "DatetimeRange")
    else Ok [] in
  match range_condition with
  | Raise e => Raise e
  | Ok range =>
      let must_conditions :=
        cond_if paper_id (fun v => FieldMatch "paper_id" (MatchValue v)) ++
        cond_if (source a) (fun v => FieldMatch "source" (MatchValue v)) ++
        cond_if (authors a) (fun v => FieldMatch "authors" (MatchText v)) ++
        cond_if (title a) (fun v => FieldMatch "title" (MatchText v)) ++
        cond_if (abstract a) (fun v => FieldMatch "abstract" (MatchText v)) ++
        range ++
        match given_list categories with
        | Some l => [FieldMatch "categories" (MatchAny l)]
        | None => []
        end in
      Ok match must_conditions with
         | [] => None
         | _ => Some (Filter must_conditions)
         end
  end.

End Build.

End Query.

(** [index] of [index.py]: the set-up it performs (embedder, client,
    [_ensure_collection]) and its dispatch on [source]. The per-source
    runs ([_process_arxiv], [_process_biorxiv_medrxiv], [_process_chemrxiv])
    are left abstract: each contributes its own trace of effects, starting
    with the construction of its fetcher. *)
Module Index.

Inductive event :=
| LoadModel                                   (** GemmaEmbedder(): SentenceTransformer(model_name) *)
| ClientInit                                  (** QdrantClient(host="localhost", port=6333) *)
| CollectionExists                            (** client.collection_exists *)
| CreateCollection                            (** client.create_collection *)
| CreatePayloadIndex (field schema : string)  (** client.create_payload_index *)
| FetcherInit (name : string)                 (** ArxivFetcher(), BiorxivFetcher(server), ChemrxivFetcher() *)
| Fetch                                       (** a read of the source *)
| Upsert.                                     (** client.upsert *)

Definition payload_indexes : list (string * string) :=
  [("paper_id", "keyword"); ("source", "keyword"); ("authors", "text");
   ("title", "text"); ("abstract", "text"); ("update_date", "datetime");
   ("categories", "keyword")]%string.

(** The calls [index] makes on the vector store's server. *)
Definition vector_store_call (e : event) : bool :=
  match e with
  | CollectionExists | CreateCollection | CreatePayloadIndex _ _ | Upsert => true
  | _ => false
  end.

(** Events that belong to the ingestion proper. *)
Definition ingestion_event (e : event) : bool :=
  match e with
  | FetcherInit _ | Fetch | Upsert => true
  | _ => false
  end.

Section Run.
(** The answer of [collection_exists(QDRANT_COLLECTION_NAME)]. *)
Variable collection_present : bool.
Variable process_arxiv :
  option string -> option string -> option string -> list event * result unit.
Variable process_biorxiv_medrxiv :
  string -> string -> string -> option string -> list event * result unit.
Variable process_chemrxiv : option string -> Z -> list event * result unit.

Definition ensure_collection : list event :=
  CollectionExists ::
  (if collection_present then []
   else CreateCollection :: map (fun '(f, k) => CreatePayloadIndex f k) payload_indexes).

Definition setup : list event := [LoadModel; ClientInit] ++ ensure_collection.

Definition then_run (tr : list event) (run : list event * result unit) :
  list event * result unit :=
  (tr ++ fst run, snd run).

Definition index (source : string) (start_date end_date query category : option string)
    (max_results : Z) : list event * result unit :=
  if String.eqb source "arxiv" then
    then_run setup (process_arxiv start_date end_date category)
  else if String.eqb source "biorxiv" then
    match Query.given start_date, Query.given end_date with
    | Some s, Some e => then_run setup (process_biorxiv_medrxiv "biorxiv" s e category)
    | _, _ => (setup, Raise (ValueError "biorxiv requires start_date and end_date (YYYY-MM-DD)"))
    end
  else if String.eqb source "medrxiv" then
    match Query.given start_date, Query.given end_date with
    | Some s, Some e => then_run setup (process_biorxiv_medrxiv "medrxiv" s e category)
    | _, _ => (setup, Raise (ValueError "medrxiv requires start_date and end_date (YYYY-MM-DD)"))
    end
  else if String.eqb source "chemrxiv" then
    then_run setup (process_chemrxiv query max_results)
  else (setup, Raise (ValueError ("Unknown source: " ++ source))).

End Run.
End Index.

(** What a filter selects, on the payload fields it reads, and the
    constraints of a [query] call it is compared with. *)
Module QuerySemantics.
Import Query.

(** A stored payload, as far as the filter looks at it. *)
Record stored := mk_stored {
  s_paper_id : string;
  s_source : string;
  s_authors : string;
  s_title : string;
  s_abstract : string;
  s_update_date : string;
  s_categories : list string
}.

Section Semantics.
(** Qdrant's full-text match of a field value against a query text, and
    its datetime order, left abstract. *)
Variable text_match : string -> string -> bool.
Variable date_le : string -> string -> bool.

Definition field_values (key : string) (r : stored) : list string :=
  if String.eqb key "paper_id" then [s_paper_id r]
  else if String.eqb key "source" then [s_source r]
  else if String.eqb key "authors" then [s_authors r]
  else if String.eqb key "title" then [s_title r]
  else if String.eqb key "abstract" then [s_abstract r]
  else if String.eqb key "update_date" then [s_update_date r]
  else if String.eqb key "categories" then s_categories r
  else [].

(** A condition on a field holds when one of the field's values passes it
    (a list-valued field such as categories has several). *)
Definition cond_holds (r : stored) (c : field_condition) : bool :=
  match c with
  | FieldMatch key (MatchValue v) => existsb (String.eqb v) (field_values key r)
  | FieldMatch key (MatchText t) => existsb (fun x => text_match x t) (field_values key r)
  | FieldMatch key (MatchAny l) =>
      existsb (fun x => existsb (String.eqb x) l) (field_values key r)
  | FieldRange key gte lte =>
      existsb (fun x => match gte with Some g => date_le g x | None => true end &&
                        match lte with Some l => date_le x l | None => true end)
              (field_values key r)
  end.

(** [query_filter=None] selects every point; [Filter(must=cs)] the points
    passing every condition of [cs]. *)
Definition filter_matches (f : option filter) (r : stored) : bool :=
  match f with
  | None => true
  | Some fl => forallb (cond_holds r) (must fl)
  end.

(** The spec's reading, taken literally: every argument the caller passed
    (not None) constrains the result, the aliases included. *)
Definition supplied_constraints_hold (a : query_args) (r : stored) : Prop :=
  (forall v, paper_id a = Some v -> s_paper_id r = v) /\
  (forall v, arxiv_id a = Some v -> s_paper_id r = v) /\
  (forall v, source a = Some v -> s_source r = v) /\
  (forall v, authors a = Some v -> text_match (s_authors r) v = true) /\
  (forall v, title a = Some v -> text_match (s_title r) v = true) /\
  (forall v, abstract a = Some v -> text_match (s_abstract r) v = true) /\
  (forall v, min_update_date a = Some v -> date_le v (s_update_date r) = true) /\
  (forall v, max_update_date a = Some v -> date_le (s_update_date r) v = true) /\
  (forall l, categories a = Some l -> exists c, In c l /\ In c (s_categories r)) /\
  (forall l, arxiv_categories a = Some l -> exists c, In c l /\ In c (s_categories r)).

(** The constraints the code keeps: non-empty values only, arxiv_id in
    place of paper_id and arxiv_categories in place of categories when
    they are non-empty. *)
Definition resolved_paper_id (a : query_args) : option string :=
  match given (arxiv_id a) with Some v => Some v | None => given (paper_id a) end.

Definition resolved_categories (a : query_args) : option (list string) :=
  match given_list (arxiv_categories a) with
  | Some l => Some l
  | None => given_list (categories a)
  end.

Definition given_constraints_hold (a : query_args) (r : stored) : Prop :=
  (forall v, resolved_paper_id a = Some v -> s_paper_id r = v) /\
  (forall v, given (source a) = Some v -> s_source r = v) /\
  (forall v, given (authors a) = Some v -> text_match (s_authors r) v = true) /\
  (forall v, given (title a) = Some v -> text_match (s_title r) v = true) /\
  (forall v, given (abstract a) = Some v -> text_match (s_abstract r) v = true) /\
  (forall v, given (min_update_date a) = Some v -> date_le v (s_update_date r) = true) /\
  (forall v, given (max_update_date a) = Some v -> date_le (s_update_date r) v = true) /\
  (forall l, resolved_categories a = Some l -> exists c, In c l /\ In c (s_categories r)).

End Semantics.

(** The same call with another [paper_id] argument. *)
Definition with_paper_id (a : query_args) (p : option string) : query_args :=
  mk_args p (source a) (authors a) (title a) (abstract a) (min_update_date a)
          (max_update_date a) (categories a) (arxiv_id a) (arxiv_categories a).

(** The same call with another [categories] argument. *)
Definition with_categories (a : query_args) (cs : option (list string)) : query_args :=
  mk_args (paper_id a) (source a) (authors a) (title a) (abstract a) (min_update_date a)
          (max_update_date a) cs (arxiv_id a) (arxiv_categories a).

End QuerySemantics.


(* ------------------------------------------------------------------ *)
(** ** [" ".join(s.split())]  (the abstracts of all three [_parse_record];
    [record["categories"].split()] in fetchers/arxiv.py)

    [str.split()] with no separator splits at runs of whitespace and drops
    empty strings; whitespace is what [str.isspace] accepts, listed here
    by code point as CPython 3 has it. Strings are lists of code points. *)
Module Text.

Definition is_space (c : Z) : bool :=
  ((9 <=? c) && (c <=? 13)) || ((28 <=? c) && (c <=? 32)) ||
  (c =? 133) || (c =? 160) || (c =? 5760) || ((8192 <=? c) && (c <=? 8202)) ||
  (c =? 8232) || (c =? 8233) || (c =? 8239) || (c =? 8287) || (c =? 12288).

(** [cur] holds the word being read, reversed. *)
Fixpoint split_acc (cur : list Z) (s : list Z) : list (list Z) :=
  match s with
  | [] => match cur with [] => [] | _ => [rev cur] end
  | c :: s' =>
      if is_space c then
        match cur with
        | [] => split_acc [] s'
        | _ => rev cur :: split_acc [] s'
        end
      else split_acc (c :: cur) s'
  end.

Definition split (s : list Z) : list (list Z) := split_acc [] s.

(** [sep.join(ws)] *)
Fixpoint join (sep : list Z) (ws : list (list Z)) : list Z :=
  match ws with
  | [] => []
  | [w] => w
  | w :: ws' => w ++ sep ++ join sep ws'
  end.

Definition normalize_ws (s : list Z) : list Z := join [32] (split s).

End Text.

(** Quantities read off the traces of the embedded code. *)
Module Measures.

(** Seconds slept in a [retry_request] trace: [asyncio.sleep] sleeps
    [max 0 delay] for a finite delay and returns at once for -inf. A trace
    with a [Sleep PosInf] never ends; that sleep is not counted here. *)
Definition total_sleep (tr : list Retry.event) : Q :=
  fold_right (fun e acc => match e with
                           | Retry.Sleep (Retry.Fin q) => (Qmax 0 q + acc)%Q
                           | _ => acc
                           end) 0%Q tr.

Definition is_request (e : Retry.event) : bool :=
  match e with Retry.Request _ => true | _ => false end.

Definition request_count (tr : list Retry.event) : nat := length (List.filter is_request tr).

Definition date_eqb (d1 d2 : Arxiv.date) : bool :=
  (Arxiv.year d1 =? Arxiv.year d2) && (Arxiv.month d1 =? Arxiv.month d2) &&
  (Arxiv.day d1 =? Arxiv.day d2).

Section Store.
Variable Paper : Type.
Variable paper_id : Paper -> list Z.

(** The last record of [papers] whose point id is [k]. *)
Fixpoint last_with_id (k : Z) (papers : list Paper) : option Paper :=
  match papers with
  | [] => None
  | p :: ps =>
      match last_with_id k ps with
      | Some q => Some q
      | None =>
          match PointId.get_point_id (paper_id p) with
          | Ok i => if i =? k then Some p else None
          | Raise _ => None
          end
      end
  end.
End Store.

End Measures.


(* ================================================================== *)
(** * Proofs *)
(* ================================================================== *)

Module PointIdFacts.
Import PointId.

(** Test vectors, checked against CPython's [hashlib]. *)
Example md5_empty :
  string_of_list_ascii (hexdigest (md5 [])) = "d41d8cd98f00b204e9800998ecf8427e"%string.
Proof. vm_compute. reflexivity. Qed.

Example md5_abc :
  string_of_list_ascii (hexdigest (md5 [97; 98; 99])) = "900150983cd24fb0d6963f7d28e17f72"%string.
Proof. vm_compute. reflexivity. Qed.

Example md5_two_blocks :
  string_of_list_ascii (hexdigest (md5 (repeat 97 100))) = "36a92cc94a9e0fa21f625f8bfb007adf"%string.
Proof. vm_compute. reflexivity. Qed.

Example md5_pad_boundary :
  string_of_list_ascii (hexdigest (md5 (repeat 97 56))) = "3b0c8ac703f828b04c6c197006d17218"%string.
Proof. vm_compute. reflexivity. Qed.

Example get_point_id_empty : get_point_id [] = Ok 6061155539545534981.
Proof. vm_compute. reflexivity. Qed.

Example get_point_id_e_acute : get_point_id [233] = Ok 7412306613632936882.
Proof. vm_compute. reflexivity. Qed.

Lemma utf8_char_some (c : Z) :
  0 <= c <= 1114111 -> is_surrogate c = false -> exists bs, utf8_char c = Some bs.
Proof.
  intros Hc Hs. unfold utf8_char.
  destruct (c <? 0) eqn:E0; [apply Z.ltb_lt in E0; lia|].
  destruct (c <? 128); [eauto|].
  destruct (c <? 2048); [eauto|].
  destruct (c <? 65536); [rewrite Hs; eauto|].
  destruct (c <=? 1114111) eqn:E4; [eauto|apply Z.leb_gt in E4; lia].
Qed.

Lemma utf8_char_surrogate (c : Z) : is_surrogate c = true -> utf8_char c = None.
Proof.
  intros Hs. pose proof Hs as Hs'.
  unfold is_surrogate in Hs'. apply andb_prop in Hs' as [H1 H2].
  apply Z.leb_le in H1. apply Z.leb_le in H2.
  unfold utf8_char.
  replace (c <? 0) with false by (symmetry; apply Z.ltb_ge; lia).
  replace (c <? 128) with false by (symmetry; apply Z.ltb_ge; lia).
  replace (c <? 2048) with false by (symmetry; apply Z.ltb_ge; lia).
  replace (c <? 65536) with true by (symmetry; apply Z.ltb_lt; lia).
  rewrite Hs. reflexivity.
Qed.

Lemma encode_ok (s : list Z) :
  py_str s -> Forall (fun c => is_surrogate c = false) s -> exists bs, encode s = Ok bs.
Proof.
  induction s as [|c s IH]; intros Hs Hn; simpl; [eauto|].
  inversion Hs; subst. inversion Hn; subst.
  destruct (utf8_char_some c) as [bs Hbs]; auto.
  destruct IH as [rest Hrest]; auto.
  rewrite Hbs, Hrest. eauto.
Qed.

Lemma encode_surrogate (s : list Z) :
  Exists (fun c => is_surrogate c = true) s -> encode s = Raise UnicodeEncodeError.
Proof.
  induction 1 as [c s Hc|c s _ IH]; simpl.
  - rewrite (utf8_char_surrogate c Hc). reflexivity.
  - rewrite IH. destruct (utf8_char c); reflexivity.
Qed.

Lemma le_bytes_length (n : nat) (x : Z) : length (le_bytes n x) = n.
Proof. revert x; induction n; intros x; simpl; auto. Qed.

Lemma le_bytes_range (n : nat) (x : Z) : Forall (fun b => 0 <= b < 256) (le_bytes n x).
Proof.
  revert x; induction n as [|n IH]; intros x; simpl; constructor; auto.
  change 255 with (Z.ones 8). rewrite Z.land_ones by lia.
  apply Z.mod_pos_bound. lia.
Qed.

Lemma md5_length (bs : list Z) : length (md5 bs) = 16%nat.
Proof.
  unfold md5. destruct (fold_left _ _ _) as [[[h0 h1] h2] h3].
  rewrite !length_app, !le_bytes_length. reflexivity.
Qed.

Lemma md5_range (bs : list Z) : Forall (fun b => 0 <= b < 256) (md5 bs).
Proof.
  unfold md5. destruct (fold_left _ _ _) as [[[h0 h1] h2] h3].
  rewrite !Forall_app. repeat split; apply le_bytes_range.
Qed.

Lemma hex_value_hex_char (n : Z) : 0 <= n < 16 -> hex_value (hex_char n) = Some n.
Proof.
  intros Hn. replace n with (Z.of_nat (Z.to_nat n)) by lia.
  assert (Hk : (Z.to_nat n < 16)%nat) by lia. revert Hk.
  generalize (Z.to_nat n) as k. intros k Hk.
  do 16 (destruct k as [|k]; [reflexivity|]). lia.
Qed.

Lemma firstn_hexdigest (n : nat) (d : list Z) :
  firstn (2 * n) (hexdigest d) = hexdigest (firstn n d).
Proof.
  revert n; induction d as [|b d IH]; intros n.
  - rewrite !firstn_nil. reflexivity.
  - destruct n as [|n]; [reflexivity|].
    replace (2 * S n)%nat with (S (S (2 * n))) by lia.
    simpl. f_equal. f_equal. apply IH.
Qed.

Lemma parse_hex_bytes (d : list Z) (acc : Z) :
  0 <= acc -> Forall (fun b => 0 <= b < 256) d ->
  exists v, parse_hex_acc acc (hexdigest d) = Some v /\
            0 <= v < (acc + 1) * 256 ^ Z.of_nat (length d).
Proof.
  revert acc; induction d as [|b d IH]; intros acc Hacc Hd.
  - exists acc. simpl. split; [reflexivity|lia].
  - inversion Hd as [|? ? Hb Hd']; subst.
    assert (Hhi : 0 <= Z.shiftr b 4 < 16).
    { rewrite Z.shiftr_div_pow2 by lia. change (2 ^ 4) with 16.
      split; [apply Z.div_pos; lia|apply Z.div_lt_upper_bound; lia]. }
    assert (Hlo : Z.land b 15 = b mod 16).
    { change 15 with (Z.ones 4). rewrite Z.land_ones by lia. reflexivity. }
    assert (Hb16 : Z.shiftr b 4 = b / 16).
    { rewrite Z.shiftr_div_pow2 by lia. reflexivity. }
    simpl hexdigest. simpl parse_hex_acc.
    rewrite (hex_value_hex_char _ Hhi).
    rewrite (hex_value_hex_char (Z.land b 15)) by (rewrite Hlo; apply Z.mod_pos_bound; lia).
    destruct (IH (16 * (16 * acc + Z.shiftr b 4) + Z.land b 15)) as [v [Hv Hr]]; auto.
    { rewrite Hlo. pose proof (Z.mod_pos_bound b 16). lia. }
    exists v. split; [exact Hv|].
    rewrite Hlo, Hb16 in Hr.
    pose proof (Z.div_mod b 16) as Hdm. pose proof (Z.mod_pos_bound b 16).
    replace (Z.of_nat (length (b :: d))) with (Z.succ (Z.of_nat (length d))) by (simpl; lia).
    rewrite Z.pow_succ_r by lia.
    assert (0 < 256 ^ Z.of_nat (length d)) by (apply Z.pow_pos_nonneg; lia).
    split; [lia|]. nia.
Qed.

End PointIdFacts.

Module PointIdClaims.
Import PointId PointIdFacts.

(** C1 (counterexample): get_point_id is not total on Python strings: the
    one-character string "\ud800" (a lone surrogate, which json.loads can
    produce) makes [paper_id.encode()] raise UnicodeEncodeError. *)
Lemma get_point_id_not_total :
  py_str [55296] /\ get_point_id [55296] = Raise UnicodeEncodeError /\
  ~ (forall s, py_str s -> exists n, get_point_id s = Ok n /\ 0 <= n < 2 ^ 63 - 1).
Proof.
  split; [repeat constructor; lia|].
  split; [vm_compute; reflexivity|].
  intros H. destruct (H [55296]) as [n [E _]]; [repeat constructor; lia|].
  vm_compute in E. discriminate.
Qed.

(** C1 (amended): for every Python string [s] without surrogate code points
    (every [s] that [str.encode()] accepts, the empty string included),
    get_point_id returns a value, namely the integer [v] parsed from the
    first 16 hex characters of the MD5 hexdigest of the UTF-8 bytes of [s]
    (so [0 <= v < 2^64]) reduced modulo [2^63 - 1], hence in
    [[0, 2^63 - 1)]; being a function of [s] alone it is deterministic.
    A string with a surrogate code point raises UnicodeEncodeError. *)
Theorem get_point_id_total_range (s : list Z) (Hs : py_str s) :
  (Forall (fun c => is_surrogate c = false) s ->
   exists bs v,
     encode s = Ok bs /\
     int16 (firstn 16 (hexdigest (md5 bs))) = Ok v /\ 0 <= v < 2 ^ 64 /\
     get_point_id s = Ok (v mod (2 ^ 63 - 1)) /\
     0 <= v mod (2 ^ 63 - 1) < 2 ^ 63 - 1) /\
  (Exists (fun c => is_surrogate c = true) s ->
   get_point_id s = Raise UnicodeEncodeError).
Proof.
  split.
  - intros Hn. destruct (encode_ok s Hs Hn) as [bs Hbs].
    assert (Hlen : length (firstn 8 (md5 bs)) = 8%nat)
      by (rewrite length_firstn, md5_length; reflexivity).
    assert (Hrange : Forall (fun b => 0 <= b < 256) (firstn 8 (md5 bs))).
    { pose proof (md5_range bs) as Hr. rewrite <- (firstn_skipn 8 (md5 bs)) in Hr.
      apply Forall_app in Hr. tauto. }
    destruct (parse_hex_bytes (firstn 8 (md5 bs)) 0) as [v [Hv Hvr]]; [lia|exact Hrange|].
    rewrite Hlen in Hvr. change ((0 + 1) * 256 ^ Z.of_nat 8) with (2 ^ 64) in Hvr.
    assert (Hint : int16 (hexdigest (firstn 8 (md5 bs))) = Ok v).
    { destruct (firstn 8 (md5 bs)) as [|b d] eqn:Ed; [discriminate Hlen|].
      unfold int16. simpl hexdigest in Hv |- *. rewrite Hv. reflexivity. }
    exists bs, v. split; [exact Hbs|].
    split; [change 16%nat with (2 * 8)%nat; rewrite firstn_hexdigest; exact Hint|].
    split; [exact Hvr|].
    split.
    + unfold get_point_id. rewrite Hbs.
      change 16%nat with (2 * 8)%nat. rewrite firstn_hexdigest, Hint. reflexivity.
    + apply Z.mod_pos_bound. lia.
  - intros He. unfold get_point_id. rewrite (encode_surrogate s He). reflexivity.
Qed.

Lemma get_point_id_total_range_witness :
  py_str [50; 52; 48; 49] /\
  get_point_id [50; 52; 48; 49] = Ok (10781323352196475586 mod (2 ^ 63 - 1)) /\
  0 <= 10781323352196475586 mod (2 ^ 63 - 1) < 2 ^ 63 - 1.
Proof.
  assert (Hs : py_str [50; 52; 48; 49]) by (repeat constructor; lia).
  destruct (proj1 (get_point_id_total_range [50; 52; 48; 49] Hs))
    as [bs [v [Hbs [Hint [Hv [Hg Hr]]]]]];
    [repeat constructor|].
  split; [exact Hs|].
  assert (Hval : v = 10781323352196475586).
  { vm_compute in Hbs. injection Hbs as <-. vm_compute in Hint.
    injection Hint as <-. reflexivity. }
  subst v. split; [exact Hg|exact Hr].
Defined.

End PointIdClaims.

Module IngestFacts.
Import PointId Ingest.

Section Facts.
Variable Paper : Type.
Variable paper_id : Paper -> list Z.
Variable Vec : Type.
Variable encode_documents : list Paper -> list Vec.

Abbreviation world := (world Paper Vec).
Abbreviation point := (point Paper Vec).
Abbreviation M := (M Paper Vec).
Abbreviation insert_points := (insert_points Paper Vec).
Abbreviation upsert_chunk := (upsert_chunk Paper paper_id Vec encode_documents).
Abbreviation process_loop := (process_loop Paper paper_id Vec encode_documents).
Abbreviation process := (process Paper paper_id Vec encode_documents).

(** The effect of a sequence of [client.upsert] calls on a world. *)
Definition apply_log (log : list (list point)) (w : world) : world :=
  mk_world Paper Vec (fold_left (fun m pts => insert_points pts m) log (store _ _ w))
           (upsert_log _ _ w ++ log).

(** A computation that never reads the world: its effect is a fixed list
    of upsert calls and its outcome is fixed. *)
Definition oblivious {A} (m : M A) (log : list (list point)) (r : result A) : Prop :=
  forall w, m w = (apply_log log w, r).

Lemma apply_log_nil (w : world) : apply_log [] w = w.
Proof. destruct w; unfold apply_log; simpl. rewrite app_nil_r. reflexivity. Qed.

Lemma apply_log_app (l1 l2 : list (list point)) (w : world) :
  apply_log (l1 ++ l2) w = apply_log l2 (apply_log l1 w).
Proof. unfold apply_log; simpl. rewrite fold_left_app, app_assoc. reflexivity. Qed.

Lemma ret_oblivious {A} (a : A) : oblivious (ret Paper Vec a) [] (Ok a).
Proof. intros w. unfold ret. rewrite apply_log_nil. reflexivity. Qed.

Lemma raise_oblivious {A} (e : exn) : oblivious (raise Paper Vec (A:=A) e) [] (Raise e).
Proof. intros w. unfold raise. rewrite apply_log_nil. reflexivity. Qed.

Lemma client_upsert_oblivious (pts : list point) :
  oblivious (client_upsert Paper Vec pts) [pts] (Ok tt).
Proof. intros w. reflexivity. Qed.

Lemma bind_oblivious_ok {A B} (m : M A) (k : A -> M B) l1 a l2 r :
  oblivious m l1 (Ok a) -> oblivious (k a) l2 r -> oblivious (bind Paper Vec m k) (l1 ++ l2) r.
Proof.
  intros Hm Hk w. unfold bind. rewrite Hm, Hk, apply_log_app. reflexivity.
Qed.

Lemma bind_oblivious_raise {A B} (m : M A) (k : A -> M B) l1 e :
  oblivious m l1 (Raise e) -> oblivious (bind Paper Vec m k) l1 (Raise e).
Proof. intros Hm w. unfold bind. rewrite Hm. reflexivity. Qed.

Lemma upsert_chunk_oblivious (chunk : list Paper) :
  exists log r, oblivious (upsert_chunk chunk) log r.
Proof.
  unfold Ingest.upsert_chunk. destruct chunk as [|p ps].
  - eexists _, _. apply ret_oblivious.
  - destruct (make_points _ _ _ _) as [pts|e].
    + eexists _, _. apply client_upsert_oblivious.
    + eexists _, _. apply raise_oblivious.
Qed.

Lemma process_loop_oblivious (papers chunk : list Paper) :
  exists log r, oblivious (process_loop chunk papers) log r.
Proof.
  revert chunk; induction papers as [|p rest IH]; intros chunk; cbn [Ingest.process_loop].
  - destruct chunk; [eexists _, _; apply ret_oblivious|apply upsert_chunk_oblivious].
  - destruct (CHUNK_SIZE <=? length (chunk ++ [p]))%nat; [|apply IH].
    destruct (upsert_chunk_oblivious (chunk ++ [p])) as [l1 [[u|e] H1]].
    + destruct u. destruct (IH []) as [l2 [r H2]].
      exists (l1 ++ l2), r. apply (bind_oblivious_ok _ _ _ tt); assumption.
    + exists l1, (Raise e). apply bind_oblivious_raise. assumption.
Qed.

Lemma insert_points_union (pts : list point) (m : gmap Z (Vec * Paper)) :
  insert_points pts m = insert_points pts ∅ ∪ m.
Proof.
  revert m; induction pts as [|[[i v] p] pts IH]; intros m; simpl.
  - rewrite (left_id_L ∅ (∪)). reflexivity.
  - unfold Ingest.insert_points in *. simpl.
    rewrite (IH (<[i:=(v, p)]> m)), (IH (<[i:=(v, p)]> ∅)).
    rewrite !insert_union_singleton_l, (right_id_L ∅ (∪)), (assoc_L (∪)).
    reflexivity.
Qed.

Lemma insert_points_idem (pts : list point) (m : gmap Z (Vec * Paper)) :
  insert_points pts (insert_points pts m) = insert_points pts m.
Proof.
  rewrite (insert_points_union pts (insert_points pts m)), (insert_points_union pts m).
  rewrite (assoc_L (∪)), (idemp_L (∪)). reflexivity.
Qed.

Lemma fold_upserts_concat (log : list (list point)) (m : gmap Z (Vec * Paper)) :
  fold_left (fun m pts => insert_points pts m) log m = insert_points (concat log) m.
Proof.
  revert m; induction log as [|pts log IH]; intros m; simpl; [reflexivity|].
  rewrite IH. unfold Ingest.insert_points. rewrite fold_left_app. reflexivity.
Qed.


(** C2: running the ingestion loop twice over the same record stream leaves
    the store exactly as one run leaves it (same point ids, vectors and
    payloads), from any initial store, and the second run ends the same way
    as the first (also when a chunk raises part-way). *)
Theorem process_idempotent (papers : list Paper) (w : world) :
  let '(w1, r1) := process papers w in
  let '(w2, r2) := process papers w1 in
  store _ _ w2 = store _ _ w1 /\ r2 = r1.
Proof.
  destruct (process_loop_oblivious papers []) as [log [r H]].
  unfold Ingest.process. rewrite !H. simpl.
  split; [|reflexivity].
  rewrite !fold_upserts_concat. apply insert_points_idem.
Qed.

(** Batching. *)
Definition point_payload (pt : point) : Paper := let '(_, _, p) := pt in p.

Fixpoint full_then_partial {A} (n : nat) (bs : list (list A)) : Prop :=
  match bs with
  | [] => True
  | [b] => (1 <= length b <= n)%nat
  | b :: bs' => length b = n /\ full_then_partial n bs'
  end.

Lemma full_then_partial_cons {A} (n : nat) (b : list A) (bs : list (list A)) :
  (1 <= n)%nat -> length b = n -> full_then_partial n bs -> full_then_partial n (b :: bs).
Proof. intros Hn Hb Hbs. destruct bs; simpl; [lia|auto]. Qed.

Definition id_ok (p : Paper) : Prop := exists i, get_point_id (paper_id p) = Ok i.

Lemma make_points_ok (pe : list (Paper * Vec)) :
  Forall id_ok (map fst pe) ->
  exists pts, make_points Paper paper_id Vec pe = Ok pts /\ map point_payload pts = map fst pe.
Proof.
  induction pe as [|[p v] pe IH]; intros Hok; simpl; [eauto|].
  inversion Hok as [|? ? [i Hi] Hok']; subst.
  rewrite Hi. destruct (IH Hok') as [pts [-> Hpts]].
  exists ((i, v, p) :: pts). simpl. rewrite Hpts. auto.
Qed.

Lemma map_fst_combine {A B} (l : list A) (k : list B) :
  length k = length l -> map fst (combine l k) = l.
Proof.
  revert k; induction l as [|a l IH]; intros [|b k] Hk; simpl in *; try lia; auto.
  rewrite IH by lia. reflexivity.
Qed.

Section Batching.
Hypothesis encode_documents_length : forall c, length (encode_documents c) = length c.

Lemma upsert_chunk_ok (chunk : list Paper) :
  chunk <> [] -> Forall id_ok chunk ->
  exists pts, oblivious (upsert_chunk chunk) [pts] (Ok tt) /\ map point_payload pts = chunk.
Proof.
  intros Hne Hok.
  assert (Hfst : map fst (combine chunk (encode_documents chunk)) = chunk)
    by (apply map_fst_combine, encode_documents_length).
  rewrite <- Hfst in Hok.
  destruct (make_points_ok _ Hok) as [pts [Hpts Hpay]].
  exists pts. split; [|rewrite Hpay; exact Hfst].
  unfold Ingest.upsert_chunk.
  destruct chunk as [|p ps]; [congruence|].
  rewrite Hpts. apply client_upsert_oblivious.
Qed.

Lemma process_loop_batches (papers chunk : list Paper) :
  (length chunk < CHUNK_SIZE)%nat -> Forall id_ok (chunk ++ papers) ->
  exists log, oblivious (process_loop chunk papers) log (Ok tt) /\
    concat (map (map point_payload) log) = chunk ++ papers /\
    full_then_partial CHUNK_SIZE (map (map point_payload) log).
Proof.
  revert chunk; induction papers as [|p rest IH]; intros chunk Hlen Hok;
    cbn [Ingest.process_loop].
  - destruct chunk as [|q qs] eqn:Ec.
    + exists []. split; [apply ret_oblivious|]. simpl. auto.
    + rewrite <- Ec in *. rewrite app_nil_r in Hok.
      destruct (upsert_chunk_ok chunk) as [pts [H1 H2]]; [subst; discriminate|exact Hok|].
      exists [pts]. split; [exact H1|].
      simpl. rewrite H2, !app_nil_r. split; [reflexivity|].
      subst chunk. simpl in *. lia.
  - replace (chunk ++ p :: rest) with ((chunk ++ [p]) ++ rest) in *
      by (rewrite <- app_assoc; reflexivity).
    assert (Hl1 : length (chunk ++ [p]) = S (length chunk)) by (rewrite length_app; simpl; lia).
    destruct (CHUNK_SIZE <=? length (chunk ++ [p]))%nat eqn:Ele.
    + apply Nat.leb_le in Ele.
      apply Forall_app in Hok as [Hok1 Hok2].
      destruct (upsert_chunk_ok (chunk ++ [p])) as [pts [H1 H2]];
        [destruct chunk; discriminate|exact Hok1|].
      destruct (IH [] ltac:(unfold CHUNK_SIZE; simpl; lia) Hok2) as [log [H3 [H4 H5]]].
      exists (pts :: log). split; [apply (bind_oblivious_ok _ _ [pts] tt); assumption|].
      simpl. rewrite H2, H4. split; [reflexivity|].
      apply full_then_partial_cons; [unfold CHUNK_SIZE; lia| |exact H5].
      unfold CHUNK_SIZE in *. lia.
    + apply Nat.leb_gt in Ele. apply IH; assumption.
Qed.

Lemma full_then_partial_250 {A} (bs : list (list A)) :
  full_then_partial CHUNK_SIZE bs -> length (concat bs) = 250%nat ->
  map (@length A) bs = [100; 100; 50]%nat.
Proof.
  unfold CHUNK_SIZE.
  destruct bs as [|b1 [|b2 [|b3 [|b4 bs]]]]; simpl; rewrite ?length_app; simpl;
    intros H Hl; try lia.
  destruct H as [H1 [H2 H3]]. rewrite H1, H2. repeat f_equal. lia.
Qed.

(** C3: provided the embedder returns one vector per record (its contract)
    and every paper_id gets an id, the loop flushes the records in order, in
    batches of exactly CHUNK_SIZE = 100 while the stream lasts, followed by
    one trailing batch of 1..100 records when a remainder is left, and by
    nothing else: the logged upsert calls cover the whole stream, so no record
    is dropped. For 250 records: three upsert calls, of sizes 100, 100, 50. *)
Theorem process_batches (papers : list Paper) (Hids : Forall id_ok papers) :
  exists log, oblivious (process papers) log (Ok tt) /\
    concat (map (map point_payload) log) = papers /\
    full_then_partial CHUNK_SIZE (map (map point_payload) log) /\
    (length papers = 250%nat -> map (@length point) log = [100; 100; 50]%nat).
Proof.
  destruct (process_loop_batches papers []) as [log [H1 [H2 H3]]];
    [unfold CHUNK_SIZE; simpl; lia|exact Hids|].
  simpl in H2. exists log. split; [exact H1|]. split; [exact H2|]. split; [exact H3|].
  intros H250. rewrite <- H2 in H250.
  pose proof (full_then_partial_250 _ H3 H250) as Hm.
  rewrite map_map in Hm. rewrite <- Hm. apply map_ext. intros pts. symmetry; apply length_map.
Qed.

End Batching.

End Facts.

Lemma process_batches_witness :
  exists log,
    oblivious nat unit (process nat (fun _ => []) unit (map (fun _ => tt)) (repeat 0%nat 250))
      log (Ok tt) /\
    map (@length _) log = [100; 100; 50]%nat.
Proof.
  assert (Hlen : forall c : list nat, length (map (fun _ => tt) c) = length c)
    by (intros c; apply length_map).
  assert (Hids : Forall (id_ok nat (fun _ => [])) (repeat 0%nat 250)).
  { apply Forall_forall. intros x _. exists 6061155539545534981.
    vm_compute. reflexivity. }
  destruct (process_batches nat (fun _ => []) unit (map (fun _ => tt)) Hlen
              (repeat 0%nat 250) Hids) as [log [H1 [_ [_ H4]]]].
  exists log. split; [exact H1|].
  apply H4. apply repeat_length.
Defined.
End IngestFacts.

Module RetryFacts.
Import Retry.

Section Facts.
Variable server : nat -> outcome.
Variable backoff_factor : Q.

(** What one attempt amounts to: the response, or the exception raised by
    [client.request] or by [raise_for_status]. *)
Definition attempt_result (i : nat) : result response :=
  match server i with
  | Resp r => if is_success (status r) then Ok r else Raise (HTTPError (status r))
  | Exc e => Raise e
  end.

(** The wait after attempt [i] is the finite float [backoff_factor * 2^i]. *)
Definition finite_wait (i : nat) : Prop :=
  wait_time backoff_factor i = Ok (Fin (backoff_factor * inject_Z (2 ^ Z.of_nat i))).

(** Attempts [a .. n-2] each followed by its back-off sleep. *)
Definition waits (a n : nat) : list event :=
  flat_map (fun i => [Request i; Sleep (Fin (backoff_factor * inject_Z (2 ^ Z.of_nat i)))])
           (seq a (n - 1 - a)).

Lemma waits_empty (a : nat) : waits a (S a) = [].
Proof. unfold waits. replace (S a - 1 - a)%nat with O by lia. reflexivity. Qed.

Lemma waits_cons (a j : nat) :
  waits a (a + S j + 1) =
  Request a :: Sleep (Fin (backoff_factor * inject_Z (2 ^ Z.of_nat a))) :: waits (S a) (S a + j + 1).
Proof.
  unfold waits. replace (a + S j + 1 - 1 - a)%nat with (S j) by lia.
  replace (S a + j + 1 - 1 - S a)%nat with j by lia. reflexivity.
Qed.

Section Step.
Variable M : Z.

(** One iteration of the loop, by what the attempt amounts to. *)
Lemma retry_loop_final (k a : nat) (last : option exn) :
  (forall c, attempt_result a <> Raise (HTTPError c)) ->
  retry_loop server M backoff_factor (S k) a last = ([Request a], Some (attempt_result a)).
Proof.
  intros H. unfold attempt_result in *. cbn [retry_loop].
  destruct (server a) as [resp|e].
  - destruct (is_success (status resp)); [reflexivity|]. exfalso. eapply H. reflexivity.
  - destruct e; try reflexivity. exfalso. eapply H. reflexivity.
Qed.

Lemma retry_loop_caught (k a : nat) (last : option exn) (c : Z) :
  attempt_result a = Raise (HTTPError c) ->
  retry_loop server M backoff_factor (S k) a last =
  if Z.of_nat a <? M - 1 then
    match wait_time backoff_factor a with
    | Raise e' => ([Request a], Some (Raise e'))
    | Ok PosInf => ([Request a; Sleep PosInf], None)
    | Ok w =>
        let '(tr, r) := retry_loop server M backoff_factor k (S a) (Some (HTTPError c)) in
        (Request a :: Sleep w :: tr, r)
    end
  else ([Request a], Some (Raise (HTTPError c))).
Proof.
  intros H. unfold attempt_result in H. cbn [retry_loop].
  destruct (server a) as [resp|e].
  - destruct (is_success (status resp)); [discriminate|]. injection H as ->. reflexivity.
  - injection H as ->. reflexivity.
Qed.

Lemma retry_loop_retry (k a : nat) (last : option exn) (c : Z) :
  attempt_result a = Raise (HTTPError c) -> Z.of_nat a < M - 1 -> finite_wait a ->
  retry_loop server M backoff_factor (S k) a last =
  (Request a :: Sleep (Fin (backoff_factor * inject_Z (2 ^ Z.of_nat a))) ::
     fst (retry_loop server M backoff_factor k (S a) (Some (HTTPError c))),
   snd (retry_loop server M backoff_factor k (S a) (Some (HTTPError c)))).
Proof.
  intros H Hlt Hw. rewrite (retry_loop_caught k a last c H).
  apply Z.ltb_lt in Hlt. rewrite Hlt. unfold finite_wait in Hw. rewrite Hw.
  destruct (retry_loop server M backoff_factor k (S a) (Some (HTTPError c))). reflexivity.
Qed.

(** The loop after [j] attempts that failed with an httpx.HTTPError, each
    followed by its finite wait. *)
Lemma retry_loop_prefix (j : nat) : forall (a k : nat) (last : option exn),
  (forall i, (a <= i < a + j)%nat ->
     (exists c, attempt_result i = Raise (HTTPError c)) /\ Z.of_nat i < M - 1 /\ finite_wait i) ->
  exists last',
    retry_loop server M backoff_factor (j + k) a last =
    (waits a (a + j + 1) ++ fst (retry_loop server M backoff_factor k (a + j) last'),
     snd (retry_loop server M backoff_factor k (a + j) last')).
Proof.
  induction j as [|j IH]; intros a k last H.
  - exists last. replace (a + 0 + 1)%nat with (S a) by lia. rewrite Nat.add_0_r, waits_empty. cbn [Nat.add].
    destruct (retry_loop server M backoff_factor k a last). reflexivity.
  - destruct (H a ltac:(lia)) as [[c Hc] [Hlt Hw]].
    destruct (IH (S a) k (Some (HTTPError c))) as [last' Heq].
    { intros i Hi. apply H. lia. }
    exists last'. cbn [Nat.add]. rewrite (retry_loop_retry (j + k) a last c Hc Hlt Hw).
    rewrite Heq, waits_cons. replace (S a + j)%nat with (a + S j)%nat by lia.
    reflexivity.
Qed.

End Step.

Lemma retry_loop_shape (N k a : nat) (last : option exn) :
  (a + k = N)%nat -> (1 <= k)%nat ->
  (forall i, (a <= i)%nat -> (i + 1 < N)%nat -> finite_wait i) ->
  exists n, (a < n <= N)%nat /\
    fst (retry_loop server (Z.of_nat N) backoff_factor k a last) = waits a n ++ [Request (n - 1)] /\
    (forall i, (a <= i < n - 1)%nat -> exists c, attempt_result i = Raise (HTTPError c)) /\
    snd (retry_loop server (Z.of_nat N) backoff_factor k a last) = Some (attempt_result (n - 1)) /\
    (forall c, attempt_result (n - 1) = Raise (HTTPError c) -> n = N).
Proof.
  revert a last; induction k as [|k IH]; intros a last HN Hk Hfin; [lia|].
  (* the attempt ends the loop: [n = a + 1] *)
  assert (Hone : fst (retry_loop server (Z.of_nat N) backoff_factor (S k) a last) = [Request a] ->
                 snd (retry_loop server (Z.of_nat N) backoff_factor (S k) a last) =
                   Some (attempt_result a) ->
                 (forall c, attempt_result a = Raise (HTTPError c) -> S a = N) ->
    exists n, (a < n <= N)%nat /\
      fst (retry_loop server (Z.of_nat N) backoff_factor (S k) a last) = waits a n ++ [Request (n - 1)] /\
      (forall i, (a <= i < n - 1)%nat -> exists c, attempt_result i = Raise (HTTPError c)) /\
      snd (retry_loop server (Z.of_nat N) backoff_factor (S k) a last) = Some (attempt_result (n - 1)) /\
      (forall c, attempt_result (n - 1) = Raise (HTTPError c) -> n = N)).
  { intros Hf Hs Hl. exists (S a). rewrite waits_empty, Hf, Hs. simpl.
    replace (a - 0)%nat with a by lia.
    split; [lia|]. split; [reflexivity|]. split; [intros i Hi; lia|]. split; [reflexivity|exact Hl]. }
  destruct (attempt_result a) as [resp|e] eqn:Ea.
  - apply Hone; rewrite ?retry_loop_final by congruence; try reflexivity.
    + rewrite Ea. reflexivity.
    + intros c Hc. discriminate.
  - destruct (caught e) eqn:Ec.
    + destruct e as [| |c| | |]; try discriminate Ec.
      destruct (Z.ltb_spec (Z.of_nat a) (Z.of_nat N - 1)) as [Hlt|Hge].
      * rewrite (retry_loop_retry _ k a last c Ea Hlt (Hfin a ltac:(lia) ltac:(lia))).
        destruct (IH (S a) (Some (HTTPError c))) as [n [Hn [Htr [Hprev [Hr Hlast]]]]];
          [lia|lia|intros i Hi1 Hi2; apply Hfin; lia|].
        exists n. cbn [fst snd]. rewrite Htr, Hr. split; [lia|]. split.
        -- unfold waits. replace (n - 1 - a)%nat with (S (n - 1 - S a)) by lia. reflexivity.
        -- split; [|split; [reflexivity|exact Hlast]].
           intros i Hi. destruct (Nat.eq_dec i a) as [->|Hne]; [eauto|apply Hprev; lia].
      * assert (E : retry_loop server (Z.of_nat N) backoff_factor (S k) a last =
                    ([Request a], Some (Raise (HTTPError c)))).
        { rewrite (retry_loop_caught _ k a last c Ea).
          apply Z.ltb_ge in Hge. rewrite Hge. reflexivity. }
        apply Hone; rewrite ?E; try reflexivity.
        intros c' _. lia.
    + assert (Hnot : forall c, attempt_result a <> Raise (HTTPError c))
        by (intros c Hc; rewrite Ea in Hc; injection Hc as ->; discriminate Ec).
      pose proof (retry_loop_final (Z.of_nat N) k a last Hnot) as E. rewrite Ea in E.
      apply Hone; rewrite ?E; try reflexivity.
      intros c Hc. injection Hc as ->. discriminate.
Qed.

End Facts.
End RetryFacts.

Module RetryClaims.
Import Retry RetryFacts.

(** With the defaults (3 attempts, backoff_factor 2.0) and a server that
    always answers 503: attempts 0, 1, 2, sleeps of 2s and 4s between them,
    then the last HTTPStatusError is raised. *)
Example retry_request_defaults_all_fail :
  retry_request (fun _ => Resp (mk_response 503 0)) 3 (2 # 1) =
  ([Request 0; Sleep (Fin (2 # 1)); Request 1; Sleep (Fin (4 # 1)); Request 2],
   Some (Raise (HTTPError 503))).
Proof. vm_compute. reflexivity. Qed.

Example retry_request_second_attempt_ok :
  retry_request (fun i => if (i =? 0)%nat then Exc (HTTPError 1) else Resp (mk_response 200 7))
    3 (2 # 1) =
  ([Request 0; Sleep (Fin (2 # 1)); Request 1], Some (Ok (mk_response 200 7))).
Proof. vm_compute. reflexivity. Qed.

(** With backoff_factor 0.0 and 1026 allowed attempts against a server
    that always fails, the wait after attempt 1024 overflows: 1025
    requests, then OverflowError. *)
Example retry_request_overflow :
  snd (retry_request (fun _ => Resp (mk_response 503 0)) 1026 0) = Some (Raise OverflowError).
Proof. vm_compute. reflexivity. Qed.

(** With the default backoff_factor 2.0 the wait after attempt 1023 is
    2.0 * 2**1023 = inf: the call sleeps forever. *)
Example retry_request_sleeps_forever :
  snd (retry_request (fun _ => Resp (mk_response 503 0)) 1025 (2 # 1)) = None.
Proof. vm_compute. reflexivity. Qed.

(** C4 (counterexample): a first attempt failing with an exception that is
    not an httpx.HTTPError (e.g. the RuntimeError of a closed client, or
    httpx.InvalidURL) is not followed by a wait nor by a second attempt,
    although it is not the last of the 3 allowed attempts: the exception
    propagates at once. *)
Lemma retry_request_other_error_not_retried :
  attempt_result (fun _ => Exc (OtherError 1)) 0 = Raise (OtherError 1) /\
  retry_request (fun _ => Exc (OtherError 1)) 3 (2 # 1) = ([Request 0], Some (Raise (OtherError 1))) /\
  ~ In (Sleep (Fin (2 # 1))) (fst (retry_request (fun _ => Exc (OtherError 1)) 3 (2 # 1))) /\
  ~ In (Request 1) (fst (retry_request (fun _ => Exc (OtherError 1)) 3 (2 # 1))).
Proof.
  split; [reflexivity|]. split; [vm_compute; reflexivity|].
  vm_compute. split; intros [H|H]; try discriminate; exact H.
Qed.

(** C4 (amended): with [max_retries <= 0] no request is made and the
    synthetic httpx.HTTPError("Request failed") is raised. With
    [max_retries >= 1] and every wait the loop may compute a finite float,
    retry_request makes [n] attempts, [1 <= n <= max_retries]; every
    attempt but the last failed with an httpx.HTTPError (transport error,
    timeout or non-2xx status) and was followed by a sleep of
    [backoff_factor * 2^attempt] seconds; the outcome is the last attempt's
    own outcome: its response if it succeeded, else its exception, and an
    httpx.HTTPError ends the loop only at attempt [max_retries]. An
    exception of any other class ends it at once. No response is ever made
    up. The wait is a float: with [max_retries >= 1026], if attempts 0 to
    1024 all fail with an httpx.HTTPError (and the first 1024 waits are
    finite), computing the wait after attempt 1024 raises OverflowError. *)
Theorem retry_request_attempts (server : nat -> outcome) (max_retries : Z) (backoff_factor : Q) :
  (max_retries <= 0 ->
   retry_request server max_retries backoff_factor = ([], Some (Raise (HTTPError 0)))) /\
  (1 <= max_retries ->
   (forall i, (i + 1 < Z.to_nat max_retries)%nat -> finite_wait backoff_factor i) ->
   exists n, (1 <= n <= Z.to_nat max_retries)%nat /\
     fst (retry_request server max_retries backoff_factor) =
       waits backoff_factor 0 n ++ [Request (n - 1)] /\
     (forall i, (i < n - 1)%nat -> exists c, attempt_result server i = Raise (HTTPError c)) /\
     snd (retry_request server max_retries backoff_factor) = Some (attempt_result server (n - 1)) /\
     (forall c, attempt_result server (n - 1) = Raise (HTTPError c) ->
                n = Z.to_nat max_retries)) /\
  (1026 <= max_retries ->
   (forall i, (i < 1024)%nat -> finite_wait backoff_factor i) ->
   (forall i, (i <= 1024)%nat -> exists c, attempt_result server i = Raise (HTTPError c)) ->
   retry_request server max_retries backoff_factor =
     (waits backoff_factor 0 1025 ++ [Request 1024], Some (Raise OverflowError))).
Proof.
  split; [|split].
  - intros Hle. unfold retry_request. replace (Z.to_nat max_retries) with O by lia.
    reflexivity.
  - intros Hge Hfin. unfold retry_request.
    destruct (retry_loop_shape server backoff_factor (Z.to_nat max_retries)
                (Z.to_nat max_retries) 0 None) as [n [Hn [Htr [Hprev [Hr Hlast]]]]];
      [lia|lia|intros i _ Hi; apply Hfin; exact Hi|].
    rewrite Z2Nat.id in Htr, Hr by lia.
    exists n. split; [lia|]. split; [exact Htr|]. split; [intros i Hi; apply Hprev; lia|].
    split; [exact Hr|exact Hlast].
  - intros Hge Hfin Hfail. unfold retry_request.
    replace (Z.to_nat max_retries) with (1024 + S (Z.to_nat max_retries - 1025))%nat by lia.
    destruct (retry_loop_prefix server backoff_factor max_retries 1024 0
                (S (Z.to_nat max_retries - 1025)) None) as [last' Heq].
    { intros i Hi. split; [apply Hfail; lia|]. split; [lia|apply Hfin; lia]. }
    rewrite Heq. cbn [Nat.add].
    destruct (Hfail 1024%nat ltac:(lia)) as [c Hc].
    rewrite (retry_loop_caught server backoff_factor max_retries _ 1024 last' c Hc).
    replace (Z.of_nat 1024 <? max_retries - 1) with true by (symmetry; apply Z.ltb_lt; lia).
    reflexivity.
Qed.

Lemma retry_request_attempts_witness :
  (1 <= 3) /\
  fst (retry_request (fun _ => Resp (mk_response 503 0)) 3 (2 # 1)) =
    waits (2 # 1) 0 3 ++ [Request 2] /\
  snd (retry_request (fun _ => Resp (mk_response 503 0)) 3 (2 # 1)) =
    Some (Raise (HTTPError 503)) /\
  retry_request (fun _ => Resp (mk_response 503 0)) 1026 0 =
    (waits 0 0 1025 ++ [Request 1024], Some (Raise OverflowError)).
Proof.
  assert (H : 1 <= 3) by lia.
  destruct (proj1 (proj2 (retry_request_attempts (fun _ => Resp (mk_response 503 0)) 3 (2 # 1))) H)
    as [n [Hn [Htr [_ [Hr Hlast]]]]].
  { intros i Hi. destruct i as [|[|i]]; [vm_compute; reflexivity|vm_compute; reflexivity|lia]. }
  assert (n = 3%nat) as ->.
  { apply (Hlast 503). reflexivity. }
  split; [exact H|]. split; [exact Htr|]. split; [rewrite Hr; reflexivity|].
  apply (proj2 (proj2 (retry_request_attempts (fun _ => Resp (mk_response 503 0)) 1026 0))).
  - lia.
  - intros i Hi. unfold finite_wait, wait_time.
    replace (1024 <=? i)%nat with false by (symmetry; apply Nat.leb_gt; lia).
    vm_compute. reflexivity.
  - intros i _. exists 503. reflexivity.
Defined.

End RetryClaims.

Module ArxivFacts.
Import Arxiv.

Definition rec_2023_01 := mk_paper "a" (mk_date 2023 1 1) ["cs.CL"%string].
Definition rec_2023_06 := mk_paper "b" (mk_date 2023 6 1) ["cs.CL"%string].
Definition rec_2024_01 := mk_paper "c" (mk_date 2024 1 1) ["cs.CL"%string].

(** The date filter example of the spec (default limit 10000). *)
Example fetch_papers_date_window :
  fetch_papers (Some (mk_date 2023 3 1)) (Some (mk_date 2023 12 31)) None 10000
    [rec_2023_01; rec_2023_06; rec_2024_01] = [rec_2023_06].
Proof. reflexivity. Qed.

Section Facts.
Variables (start end_ : option date) (category : option string) (limit : Z).

(** While [count < limit], the scan yields the passing records in file
    order, up to [limit - count] of them. *)
Lemma scan_firstn (lines : list paper) (count : Z) :
  0 <= count < limit ->
  scan start end_ category limit count lines =
  firstn (Z.to_nat (limit - count)) (List.filter (passes start end_ category) lines).
Proof.
  revert count; induction lines as [|p rest IH]; intros count Hc; simpl.
  - rewrite firstn_nil. reflexivity.
  - destruct (passes start end_ category p).
    + replace (Z.to_nat (limit - count)) with (S (Z.to_nat (limit - (count + 1)))) by lia.
      simpl. f_equal.
      destruct (limit <=? count + 1) eqn:E.
      * apply Z.leb_le in E. replace (Z.to_nat (limit - (count + 1))) with O by lia.
        reflexivity.
      * apply Z.leb_gt in E. apply IH. lia.
    + apply IH. exact Hc.
Qed.

(** For [limit >= 1]: a single pass, records failing an active filter are
    skipped without being counted, and the output is the first [limit]
    passing records (fewer at end of file). *)
Lemma fetch_papers_firstn (lines : list paper) :
  1 <= limit ->
  fetch_papers start end_ category limit lines =
  firstn (Z.to_nat limit) (List.filter (passes start end_ category) lines).
Proof. intros H. unfold fetch_papers. rewrite scan_firstn by lia. f_equal. lia. Qed.

(** For [limit <= 0] the check after [yield] comes too late: the first
    passing record is still yielded. *)
Lemma fetch_papers_nonpositive_limit (lines : list paper) :
  limit <= 0 ->
  fetch_papers start end_ category limit lines =
  firstn 1 (List.filter (passes start end_ category) lines).
Proof.
  intros H. unfold fetch_papers.
  assert (Hgen : forall count, limit <= count + 1 ->
            scan start end_ category limit count lines =
            firstn 1 (List.filter (passes start end_ category) lines)).
  { induction lines as [|p rest IH]; intros count Hc; simpl; [reflexivity|].
    destruct (passes start end_ category p); [|apply IH; exact Hc].
    replace (limit <=? count + 1) with true by (symmetry; apply Z.leb_le; lia).
    reflexivity. }
  apply Hgen. lia.
Qed.

End Facts.

(** C5 (code bug): with [limit = 0] the fetcher still yields one record: the
    count is compared with [limit] only after the [yield]. The claim says it
    stops after emitting [limit] (here 0) records; for [limit >= 1] it does
    ([fetch_papers_firstn]). *)
Theorem fetch_papers_limit_zero_yields_one :
  fetch_papers None None None 0 [rec_2023_01; rec_2023_06] = [rec_2023_01].
Proof. reflexivity. Qed.

End ArxivFacts.

Module ChemrxivFacts.
Import Chemrxiv.

Section Facts.
Variable Item : Type.
Variable server : nat -> Z -> Z -> page Item.
Variables limit page_size : Z.

Abbreviation loop := (fetch_loop Item server limit page_size).

Definition fin_of (r : list (Z * Z) * list Item * bool) : bool := snd r.
Definition reqs_of (r : list (Z * Z) * list Item * bool) : list (Z * Z) := fst (fst r).

(** Each request is sent with [skip < limit], [skip] no smaller than the
    starting cursor, and [limit = min(page_size, limit - skip)]. *)
Lemma fetch_loop_requests (fuel : nat) (n : nat) (cursor : Z) :
  Forall (fun '(l, s) => cursor <= s < limit /\ l = Z.min page_size (limit - s))
         (reqs_of (loop fuel n cursor)).
Proof.
  revert n cursor; induction fuel as [|fuel IH]; intros n cursor; [constructor|].
  unfold reqs_of. cbn [fetch_loop].
  destruct (cursor <? limit) eqn:Elt; [apply Z.ltb_lt in Elt|constructor].
  destruct (server n _ _) as [|[|it its]]; simpl; [repeat constructor; lia..|].
  destruct (_ <? page_size); [repeat constructor; lia|].
  specialize (IH (S n) (cursor + Z.of_nat (length (it :: its)))).
  unfold reqs_of in IH.
  destruct (loop fuel (S n) _) as [[reqs ys] fin] eqn:Er. simpl in IH |- *.
  constructor; [lia|].
  eapply Forall_impl; [exact IH|]. intros [l s] [H1 H2]. simpl in *. lia.
Qed.

(** The loop ends within [limit - cursor + 1] iterations, whatever the
    server answers: the cursor grows by at least one on every iteration
    that does not stop. *)
Lemma fetch_loop_finishes (fuel : nat) (n : nat) (cursor : Z) :
  (Z.to_nat (limit - cursor) < fuel)%nat -> fin_of (loop fuel n cursor) = true.
Proof.
  revert n cursor; induction fuel as [|fuel IH]; intros n cursor Hf; [lia|].
  unfold fin_of. cbn [fetch_loop].
  destruct (cursor <? limit) eqn:Elt; [apply Z.ltb_lt in Elt|reflexivity].
  destruct (server n _ _) as [|[|it its]]; [reflexivity..|].
  destruct (_ <? page_size); [reflexivity|].
  specialize (IH (S n) (cursor + Z.of_nat (length (it :: its)))).
  unfold fin_of in IH.
  destruct (loop fuel (S n) _) as [[reqs ys] fin] eqn:Er. simpl in IH |- *.
  apply IH. simpl length. lia.
Qed.

(** Past that bound, more fuel changes nothing. *)
Lemma fetch_loop_stable (fuel1 fuel2 : nat) (n : nat) (cursor : Z) :
  (Z.to_nat (limit - cursor) < fuel1)%nat -> (Z.to_nat (limit - cursor) < fuel2)%nat ->
  loop fuel1 n cursor = loop fuel2 n cursor.
Proof.
  revert fuel2 n cursor; induction fuel1 as [|fuel1 IH]; intros fuel2 n cursor H1 H2; [lia|].
  destruct fuel2 as [|fuel2]; [lia|].
  cbn [fetch_loop].
  destruct (cursor <? limit) eqn:Elt; [apply Z.ltb_lt in Elt|reflexivity].
  destruct (server n _ _) as [|[|it its]]; [reflexivity..|].
  destruct (_ <? page_size); [reflexivity|].
  rewrite (IH fuel2); [reflexivity| simpl length; lia | simpl length; lia].
Qed.

Section Pages.
(** A source whose answers to the first [k] requests hold [page_size]
    items each and whose answer to request [k] holds fewer. *)
Variable pg : nat -> list Item.
Variable k : nat.
Definition request_at (i : nat) : Z * Z :=
  (Z.min page_size (limit - Z.of_nat i * page_size), Z.of_nat i * page_size).
Hypothesis Hserv : forall i, (i <= k)%nat ->
  server i (fst (request_at i)) (snd (request_at i)) = Page (pg i).
Hypothesis Hfull : forall i, (i < k)%nat -> Z.of_nat (length (pg i)) = page_size.
Hypothesis Hlast : Z.of_nat (length (pg k)) < page_size.
Hypothesis Hlim : Z.of_nat k * page_size < limit.

Lemma fetch_loop_pages (d i : nat) (fuel : nat) :
  (i + d = k)%nat -> (d < fuel)%nat ->
  loop fuel i (Z.of_nat i * page_size) =
  (map request_at (seq i (S d)), concat (map pg (seq i (S d))), true).
Proof.
  assert (Hps : 0 < page_size) by lia.
  revert i fuel; induction d as [|d IH]; intros i fuel Hi Hf;
    (destruct fuel as [|fuel]; [lia|]); cbn [fetch_loop fst snd].
  - replace (Z.of_nat i * page_size <? limit) with true
      by (symmetry; apply Z.ltb_lt; subst; lia).
    pose proof (Hserv i ltac:(lia)) as Hs. unfold request_at in Hs. simpl in Hs. rewrite Hs.
    replace i with k in * by lia.
    destruct (pg k) as [|it its] eqn:Ek; [simpl; rewrite Ek; reflexivity|].
    replace (Z.of_nat (length (it :: its)) <? page_size) with true
      by (symmetry; apply Z.ltb_lt; exact Hlast).
    simpl. rewrite Ek, app_nil_r. reflexivity.
  - assert (Hik : (i < k)%nat) by lia.
    replace (Z.of_nat i * page_size <? limit) with true
      by (symmetry; apply Z.ltb_lt; nia).
    pose proof (Hserv i ltac:(lia)) as Hs. unfold request_at in Hs. simpl in Hs. rewrite Hs.
    pose proof (Hfull i Hik) as Hl.
    destruct (pg i) as [|it its] eqn:Ei; [simpl in Hl; lia|].
    rewrite Hl, Z.ltb_irrefl.
    replace (Z.of_nat i * page_size + page_size) with (Z.of_nat (S i) * page_size) by lia.
    rewrite (IH (S i) fuel) by lia.
    simpl. rewrite Ei. reflexivity.
Qed.

End Pages.
End Facts.
End ChemrxivFacts.

Module ChemrxivClaims.
Import Chemrxiv ChemrxivFacts.

(** A server that honours [limit] and [skip] over a database [db]. *)
Definition honouring_server (db : list nat) : nat -> Z -> Z -> page nat :=
  fun _ l s => Page (firstn (Z.to_nat l) (skipn (Z.to_nat s) db)).

Definition db250 : list nat := seq 0 250.

(** C6 (counterexample): page_size 100 and a source of 250 items, served as
    pages of 100, 100 and a final page of 50. With [limit = 200] the loop
    stops once skip reaches 200: it yields 200 records, not the 250 of all
    pages, and never requests the final page. *)
Lemma fetch_papers_limit_cuts_pages :
  length (match honouring_server db250 0 100 0 with Page l => l | PageError => [] end) = 100%nat /\
  length (match honouring_server db250 1 100 100 with Page l => l | PageError => [] end) = 100%nat /\
  length (match honouring_server db250 2 100 200 with Page l => l | PageError => [] end) = 50%nat /\
  fetch_papers nat (honouring_server db250) 200 100 1000 = ([(100, 0); (100, 100)], seq 0 200, true) /\
  length (seq 0 200) <> (100 + 100 + 50)%nat.
Proof. vm_compute. repeat split; discriminate. Qed.

(** C6 (amended): whatever the server answers, the loop ends within
    [limit + 1] iterations (more fuel changes nothing), sends only requests
    with [0 <= skip < limit] and [limit = min(page_size, limit - skip)].
    A source answering [page_size] items to requests [0 .. k-1] and fewer
    to request [k], with [k * page_size < limit] (the full pages stay below
    the limit), gets exactly the requests [0 .. k], at skips
    [0, page_size, ..., k * page_size], and yields all items of the [k+1]
    pages, in order. *)
Theorem fetch_papers_terminates (Item : Type) (server : nat -> Z -> Z -> page Item)
    (limit page_size : Z) :
  (forall fuel, (Z.to_nat limit < fuel)%nat ->
     fin_of Item (fetch_papers Item server limit page_size fuel) = true /\
     fetch_papers Item server limit page_size fuel =
       fetch_papers Item server limit page_size (S (Z.to_nat limit)) /\
     Forall (fun '(l, s) => 0 <= s < limit /\ l = Z.min page_size (limit - s))
            (reqs_of Item (fetch_papers Item server limit page_size fuel))) /\
  (forall (pg : nat -> list Item) (k : nat),
     (forall i, (i <= k)%nat ->
        server i (fst (request_at limit page_size i)) (snd (request_at limit page_size i)) =
        Page (pg i)) ->
     (forall i, (i < k)%nat -> Z.of_nat (length (pg i)) = page_size) ->
     Z.of_nat (length (pg k)) < page_size ->
     Z.of_nat k * page_size < limit ->
     forall fuel, (Z.to_nat limit < fuel)%nat ->
       fetch_papers Item server limit page_size fuel =
       (map (request_at limit page_size) (seq 0 (S k)), concat (map pg (seq 0 (S k))), true)).
Proof.
  split.
  - intros fuel Hf. unfold fetch_papers. rewrite <- (Z.sub_0_r limit) in Hf.
    split; [apply fetch_loop_finishes; exact Hf|].
    split; [apply fetch_loop_stable; [exact Hf|lia]|].
    eapply Forall_impl; [apply fetch_loop_requests|]. intros [l s] H. exact H.
  - intros pg k Hserv Hfull Hlast Hlim fuel Hf. unfold fetch_papers.
    assert (Hk : (k < fuel)%nat).
    { assert (Z.of_nat k <= Z.of_nat k * page_size) by nia. lia. }
    pose proof (fetch_loop_pages Item server limit page_size pg k Hserv Hfull Hlast Hlim
                  k 0 fuel ltac:(lia) Hk) as H.
    exact H.
Qed.

Lemma fetch_papers_terminates_witness :
  fetch_papers nat (honouring_server db250) 1000 100 1001 =
  (map (request_at 1000 100) (seq 0 3),
   concat (map (fun i => firstn 100 (skipn (100 * i) db250)) (seq 0 3)), true).
Proof.
  apply (proj2 (fetch_papers_terminates nat (honouring_server db250) 1000 100)
           (fun i => firstn 100 (skipn (100 * i) db250)) 2%nat).
  - intros i Hi. destruct i as [|[|[|i]]]; [vm_compute; reflexivity..|lia].
  - intros i Hi. destruct i as [|[|i]]; [vm_compute; reflexivity..|lia].
  - vm_compute. reflexivity.
  - lia.
  - apply Nat.ltb_lt. vm_compute. reflexivity.
Defined.

End ChemrxivClaims.

Module BiorxivClaims.
Import Biorxiv.

Lemma find_none_forall {A} (f : A -> bool) (l : list A) :
  Forall (fun x => f x = false) l -> find f l = None.
Proof. induction 1 as [|x l Hx _ IH]; simpl; [reflexivity|]. rewrite Hx. exact IH. Qed.

(** C7: from any point of the stream, an answer whose [collection] is empty,
    or whose [messages] hold no entry of type "cursor_value", ends the
    stream: that request is the last one, the items yielded from there on
    are exactly that page's [collection], and the loop finishes normally. *)
Theorem fetch_loop_no_cursor_stops (Item : Type) (server : nat -> Z -> answer Item)
    (fuel n : nat) (cursor : Z) (collection : list Item) (messages : list message)
    (Hfuel : (1 <= fuel)%nat)
    (Hs : server n cursor = Answer collection messages)
    (Hend : collection = [] \/ Forall (fun m => is_cursor_message m = false) messages) :
  fetch_loop Item server fuel n cursor = ([cursor], collection, true).
Proof.
  destruct fuel as [|fuel]; [lia|]. cbn [fetch_loop]. rewrite Hs.
  destruct collection as [|it its]; [reflexivity|].
  destruct Hend as [Hc|Hno]; [discriminate|].
  rewrite (find_none_forall _ _ Hno). reflexivity.
Qed.

Definition two_page_server : nat -> Z -> answer nat :=
  fun n c => if (n =? 0)%nat
             then Answer [1; 2]%nat [mk_message (Some "cursor_value"%string) 2]
             else Answer [3]%nat [mk_message (Some "ok"%string) 0].

Lemma fetch_loop_no_cursor_stops_witness :
  two_page_server 1 2 = Answer [3]%nat [mk_message (Some "ok"%string) 0] /\
  fetch_loop nat two_page_server 5 1 2 = ([2], [3]%nat, true) /\
  fetch_papers nat two_page_server 5 = ([0; 2], [1; 2; 3]%nat, true).
Proof.
  split; [reflexivity|]. split.
  - apply (fetch_loop_no_cursor_stops nat two_page_server 5 1 2 [3]%nat
             [mk_message (Some "ok"%string) 0]); [lia|reflexivity|].
    right. repeat constructor.
  - reflexivity.
Defined.

End BiorxivClaims.

Module QueryFacts.
Import Query QuerySemantics.

(** The conditions [query] collects when it builds no invalid model. *)
Definition conditions (a : query_args) : list field_condition :=
  cond_if (if truthy (arxiv_id a) then arxiv_id a else paper_id a)
          (fun v => FieldMatch "paper_id" (MatchValue v)) ++
  cond_if (source a) (fun v => FieldMatch "source" (MatchValue v)) ++
  cond_if (authors a) (fun v => FieldMatch "authors" (MatchText v)) ++
  cond_if (title a) (fun v => FieldMatch "title" (MatchText v)) ++
  cond_if (abstract a) (fun v => FieldMatch "abstract" (MatchText v)) ++
  (if truthy (min_update_date a) || truthy (max_update_date a)
   then [FieldRange "update_date" (given (min_update_date a)) (given (max_update_date a))]
   else []) ++
  match given_list (if truthy_list (arxiv_categories a) then arxiv_categories a
                    else categories a) with
  | Some l => [FieldMatch "categories" (MatchAny l)]
  | None => []
  end.

(** [Filter(must=must_conditions) if must_conditions else None] *)
Definition filter_of (l : list field_condition) : option filter :=
  match l with [] => None | _ => Some (Filter l) end.

Section Build.
Variable datetime_valid : string -> bool.

Definition dates_valid (a : query_args) : bool :=
  bound_valid datetime_valid (min_update_date a) && bound_valid datetime_valid (max_update_date a).

Lemma build_query_filter_ok (a : query_args) :
  dates_valid a = true -> build_query_filter datetime_valid a = Ok (filter_of (conditions a)).
Proof.
  unfold dates_valid. intros H. unfold build_query_filter, conditions, filter_of.
  destruct (truthy (min_update_date a) || truthy (max_update_date a)); [rewrite H|]; reflexivity.
Qed.

Lemma build_query_filter_raise (a : query_args) :
  dates_valid a = false ->
  build_query_filter datetime_valid a = Raise (ValidationError "DatetimeRange").
Proof.
  unfold dates_valid. intros H. unfold build_query_filter.
  destruct (truthy (min_update_date a) || truthy (max_update_date a)) eqn:Et.
  - rewrite H. reflexivity.
  - exfalso. unfold truthy, bound_valid in *.
    destruct (given (min_update_date a)), (given (max_update_date a)); discriminate.
Qed.

Lemma build_query_filter_inv (a : query_args) (f : option filter) :
  build_query_filter datetime_valid a = Ok f -> f = filter_of (conditions a).
Proof.
  destruct (dates_valid a) eqn:E.
  - rewrite (build_query_filter_ok a E). intros H. injection H as <-. reflexivity.
  - rewrite (build_query_filter_raise a E). discriminate.
Qed.

End Build.

Section Semantics.
Variable text_match : string -> string -> bool.
Variable date_le : string -> string -> bool.

Abbreviation cond_holds := (cond_holds text_match date_le).
Abbreviation filter_matches := (filter_matches text_match date_le).
Abbreviation given_constraints_hold := (given_constraints_hold text_match date_le).

Lemma forallb_cond_if (r : stored) (o : option string) (mk : string -> field_condition)
    (P : string -> Prop) :
  (forall v, cond_holds r (mk v) = true <-> P v) ->
  (forallb (cond_holds r) (cond_if o mk) = true <-> forall v, given o = Some v -> P v).
Proof.
  intros Hmk. unfold cond_if. destruct (given o) as [v|].
  - simpl. rewrite andb_true_r, Hmk. split; [intros H w Hw; injection Hw as <-; exact H|].
    intros H. apply H. reflexivity.
  - simpl. split; [intros _ w Hw; discriminate|reflexivity].
Qed.

Lemma existsb_single (f : string -> bool) (x : string) : existsb f [x] = f x.
Proof. simpl. apply orb_false_r. Qed.

Lemma categories_holds (r : stored) (l : list string) :
  cond_holds r (FieldMatch "categories" (MatchAny l)) = true <->
  exists c, In c l /\ In c (s_categories r).
Proof.
  simpl. rewrite existsb_exists. split.
  - intros [x [Hx Hl]]. apply existsb_exists in Hl as [y [Hy Heq]].
    apply String.eqb_eq in Heq. subst y. eauto.
  - intros [c [Hc Hr]]. exists c. split; [exact Hr|].
    apply existsb_exists. exists c. split; [exact Hc|]. apply String.eqb_refl.
Qed.

Lemma range_holds (r : stored) (a : query_args) :
  forallb (cond_holds r)
    (if truthy (min_update_date a) || truthy (max_update_date a)
     then [FieldRange "update_date" (given (min_update_date a)) (given (max_update_date a))]
     else []) = true <->
  (forall v, given (min_update_date a) = Some v -> date_le v (s_update_date r) = true) /\
  (forall v, given (max_update_date a) = Some v -> date_le (s_update_date r) v = true).
Proof.
  unfold truthy.
  destruct (given (min_update_date a)) as [g|], (given (max_update_date a)) as [l|];
    simpl; rewrite ?orb_false_r, ?andb_true_r.
  - rewrite andb_true_iff. split.
    + intros [H1 H2]. split; intros v Hv; injection Hv as <-; assumption.
    + intros [H1 H2]. split; [apply H1|apply H2]; reflexivity.
  - split; [intros H; split; [intros v Hv; injection Hv as <-; exact H|discriminate]|].
    intros [H _]. apply H. reflexivity.
  - split; [intros H; split; [discriminate|intros v Hv; injection Hv as <-; exact H]|].
    intros [_ H]. apply H. reflexivity.
  - split; [intros _; split; discriminate|reflexivity].
Qed.

Lemma filter_matches_conditions (a : query_args) (r : stored) :
  filter_matches (filter_of (conditions a)) r = forallb (cond_holds r) (conditions a).
Proof. unfold filter_of. destruct (conditions a); reflexivity. Qed.

Lemma resolved_paper_id_eq (a : query_args) :
  given (if truthy (arxiv_id a) then arxiv_id a else paper_id a) = resolved_paper_id a.
Proof.
  unfold resolved_paper_id, truthy. destruct (given (arxiv_id a)) eqn:E; [exact E|reflexivity].
Qed.

Lemma resolved_categories_eq (a : query_args) :
  given_list (if truthy_list (arxiv_categories a) then arxiv_categories a else categories a) =
  resolved_categories a.
Proof.
  unfold resolved_categories, truthy_list.
  destruct (given_list (arxiv_categories a)) eqn:E; [exact E|reflexivity].
Qed.

End Semantics.
End QueryFacts.

Module QueryClaims.
Import Query QuerySemantics QueryFacts.

Ltac match_value_holds :=
  intros ?v; simpl; rewrite orb_false_r; split;
  [intros ?H; apply String.eqb_eq in H; congruence
  |intros ?H; apply String.eqb_eq; congruence].

Ltac match_text_holds :=
  intros ?v; simpl; rewrite orb_false_r; reflexivity.

Lemma match_nil_none {A : Type} (l : list A) (f : list A -> filter) :
  match l with [] => None | _ => Some (f l) end = None <-> l = [].
Proof. destruct l; split; congruence. Qed.

Lemma cond_if_nil (o : option string) (mk : string -> field_condition) :
  cond_if o mk = [] <-> given o = None.
Proof. unfold cond_if. destruct (given o); split; congruence. Qed.

Lemma range_nil (a : query_args) :
  (if truthy (min_update_date a) || truthy (max_update_date a)
   then [FieldRange "update_date" (given (min_update_date a)) (given (max_update_date a))]
   else []) = [] <->
  given (min_update_date a) = None /\ given (max_update_date a) = None.
Proof.
  unfold truthy. destruct (given (min_update_date a)), (given (max_update_date a));
    simpl; intuition congruence.
Qed.

Definition tm_any : string -> string -> bool := fun _ _ => true.
Definition dl_any : string -> string -> bool := fun _ _ => true.
Definition dv_any : string -> bool := fun _ => true.

Definition both_ids : query_args :=
  mk_args (Some "2401.00001"%string) None None None None None None None
          (Some "2401.99999"%string) None.

Definition paper_99999 : stored :=
  mk_stored "2401.99999" "arxiv" "Smith" "T" "A" "2024-02-01" ["cs.CL"%string].

(** C8 (counterexample): paper_id "2401.00001" and arxiv_id "2401.99999"
    are both supplied, but the filter keeps only the arxiv_id condition: it
    selects the paper 2401.99999, which fails the supplied paper_id
    constraint. The filter is not the conjunction of the supplied
    constraints. *)
Lemma build_query_filter_drops_paper_id :
  build_query_filter dv_any both_ids =
    Ok (Some (Filter [FieldMatch "paper_id" (MatchValue "2401.99999")])) /\
  filter_matches tm_any dl_any (Some (Filter [FieldMatch "paper_id" (MatchValue "2401.99999")]))
    paper_99999 = true /\
  ~ supplied_constraints_hold tm_any dl_any both_ids paper_99999.
Proof.
  split; [reflexivity|]. split; [reflexivity|].
  intros [H _]. specialize (H _ eq_refl). discriminate H.
Qed.

Definition smith_2024 : query_args :=
  mk_args None None (Some "Smith"%string) None None (Some "2024-01-01"%string)
          None None None None.

Definition paper_smith : stored :=
  mk_stored "2401.00002" "arxiv" "Smith" "T" "A" "2024-02-01" ["cs.CL"%string].

(** The spec's example: authors="Smith" and min_update_date="2024-01-01"
    give exactly the two conditions, so a point is selected iff it passes
    both. *)
Example build_query_filter_smith_2024 :
  build_query_filter dv_any smith_2024 =
  Ok (Some (Filter [FieldMatch "authors" (MatchText "Smith");
                    FieldRange "update_date" (Some "2024-01-01"%string) None])).
Proof. reflexivity. Qed.

(** A date pydantic rejects, such as "2024-02-30", makes [DatetimeRange]
    raise: the query fails before any search. *)
Example build_query_filter_invalid_date :
  build_query_filter (fun s => negb (String.eqb s "2024-02-30"))
    (mk_args None None (Some "Smith"%string) None None (Some "2024-02-30"%string)
             None None None None) =
  Raise (ValidationError "DatetimeRange").
Proof. reflexivity. Qed.

(** C8 (amended): when a non-empty min_update_date or max_update_date is
    not a datetime or date pydantic accepts, building [DatetimeRange]
    raises a ValidationError; this is the only failure. Otherwise, with the
    aliases resolved (a non-empty arxiv_id replaces paper_id, a non-empty
    arxiv_categories replaces categories) and empty values ("" or [])
    counted as not given, the filter selects a point iff the point
    satisfies every given constraint, and there is no filter at all iff no
    constraint is given. *)
Theorem build_query_filter_conjunction (text_match date_le : string -> string -> bool)
    (datetime_valid : string -> bool) (a : query_args) (r : stored) :
  (build_query_filter datetime_valid a = Raise (ValidationError "DatetimeRange") <->
   bound_valid datetime_valid (min_update_date a) &&
   bound_valid datetime_valid (max_update_date a) = false) /\
  (forall f, build_query_filter datetime_valid a = Ok f ->
   (filter_matches text_match date_le f r = true <->
    given_constraints_hold text_match date_le a r) /\
   (f = None <->
    resolved_paper_id a = None /\ given (source a) = None /\ given (authors a) = None /\
    given (title a) = None /\ given (abstract a) = None /\
    given (min_update_date a) = None /\ given (max_update_date a) = None /\
    resolved_categories a = None)).
Proof.
  split; [|intros f Hf; apply build_query_filter_inv in Hf; subst f; split].
  - fold (dates_valid datetime_valid a). split.
    + intros H. destruct (dates_valid datetime_valid a) eqn:E; [|reflexivity].
      rewrite (build_query_filter_ok datetime_valid a E) in H. discriminate.
    + apply build_query_filter_raise.
  - rewrite filter_matches_conditions. unfold conditions, given_constraints_hold.
    rewrite !forallb_app, !andb_true_iff.
    rewrite (forallb_cond_if text_match date_le r _ _ (fun v => s_paper_id r = v))
      by match_value_holds.
    rewrite resolved_paper_id_eq.
    rewrite (forallb_cond_if text_match date_le r _ _ (fun v => s_source r = v))
      by match_value_holds.
    rewrite (forallb_cond_if text_match date_le r _ _
               (fun v => text_match (s_authors r) v = true)) by match_text_holds.
    rewrite (forallb_cond_if text_match date_le r _ _
               (fun v => text_match (s_title r) v = true)) by match_text_holds.
    rewrite (forallb_cond_if text_match date_le r _ _
               (fun v => text_match (s_abstract r) v = true)) by match_text_holds.
    rewrite range_holds, resolved_categories_eq.
    destruct (resolved_categories a) as [l|].
    + cbn [forallb]. rewrite andb_true_r, categories_holds.
      split.
      * intros (H1 & H2 & H3 & H4 & H5 & [H6 H7] & H8).
        repeat split; try assumption. intros l' Hl. injection Hl as <-. exact H8.
      * intros (H1 & H2 & H3 & H4 & H5 & H6 & H7 & H8).
        repeat split; try assumption. apply H8. reflexivity.
    + cbn [forallb]. split.
      * intros (H1 & H2 & H3 & H4 & H5 & [H6 H7] & _).
        repeat split; try assumption. intros l' Hl. discriminate.
      * intros (H1 & H2 & H3 & H4 & H5 & H6 & H7 & _). tauto.
  - unfold filter_of, conditions.
    rewrite (match_nil_none (A:=field_condition)), !app_nil, !cond_if_nil, range_nil.
    rewrite resolved_paper_id_eq, resolved_categories_eq.
    destruct (resolved_categories a); split; intros H; intuition congruence.
Qed.

Lemma build_query_filter_conjunction_witness :
  build_query_filter dv_any smith_2024 =
    Ok (Some (Filter [FieldMatch "authors" (MatchText "Smith");
                      FieldRange "update_date" (Some "2024-01-01"%string) None])) /\
  (filter_matches tm_any dl_any
     (Some (Filter [FieldMatch "authors" (MatchText "Smith");
                    FieldRange "update_date" (Some "2024-01-01"%string) None])) paper_smith = true <->
   given_constraints_hold tm_any dl_any smith_2024 paper_smith).
Proof.
  split; [reflexivity|].
  exact (proj1 (proj2 (build_query_filter_conjunction tm_any dl_any dv_any smith_2024 paper_smith)
                  _ eq_refl)).
Defined.

Definition empty_arxiv_id : query_args :=
  mk_args (Some "2401.00001"%string) None None None None None None None (Some ""%string) None.

Definition empty_arxiv_categories : query_args :=
  mk_args None None None None None None None (Some ["cs.CL"%string]) None (Some []).

(** C10 (counterexample): an arxiv_id that is supplied but empty does not
    override paper_id; the paper_id condition uses the paper_id argument.
    Likewise an empty arxiv_categories list leaves categories in place. *)
Lemma build_query_filter_empty_alias_ignored :
  arxiv_id empty_arxiv_id = Some ""%string /\
  build_query_filter dv_any empty_arxiv_id =
    Ok (Some (Filter [FieldMatch "paper_id" (MatchValue "2401.00001")])) /\
  arxiv_categories empty_arxiv_categories = Some [] /\
  build_query_filter dv_any empty_arxiv_categories =
    Ok (Some (Filter [FieldMatch "categories" (MatchAny ["cs.CL"%string])])).
Proof. repeat split; reflexivity. Qed.

Lemma match_snoc_some (l : list field_condition) (c : field_condition) :
  match l ++ [c] with [] => None | _ => Some (Filter (l ++ [c])) end =
  Some (Filter (l ++ [c])).
Proof. destruct l; reflexivity. Qed.

(** C10 (amended): a non-empty arxiv_id replaces paper_id: the outcome
    (filter or ValidationError) does not depend on the paper_id argument,
    and a filter built has as its first condition the exact match of
    paper_id against the arxiv_id value. A non-empty arxiv_categories
    replaces categories in the same way: the outcome does not depend on
    categories, and a filter built has as its last condition the MatchAny
    on the arxiv_categories list. *)
Theorem build_query_filter_alias_override (datetime_valid : string -> bool) (a : query_args) :
  (forall v, given (arxiv_id a) = Some v ->
     (forall p, build_query_filter datetime_valid (with_paper_id a p) =
                build_query_filter datetime_valid a) /\
     (forall f, build_query_filter datetime_valid a = Ok f ->
        exists rest, f = Some (Filter (FieldMatch "paper_id" (MatchValue v) :: rest)))) /\
  (forall l, given_list (arxiv_categories a) = Some l ->
     (forall cs, build_query_filter datetime_valid (with_categories a cs) =
                 build_query_filter datetime_valid a) /\
     (forall f, build_query_filter datetime_valid a = Ok f ->
        exists pre, f = Some (Filter (pre ++ [FieldMatch "categories" (MatchAny l)])))).
Proof.
  split.
  - intros v Hv. split.
    + intros p. unfold build_query_filter, truthy. cbn - [given given_list truthy_list bound_valid].
      rewrite Hv. reflexivity.
    + intros f Hf. apply build_query_filter_inv in Hf. subst f.
      assert (E : cond_if (if truthy (arxiv_id a) then arxiv_id a else paper_id a)
                    (fun v => FieldMatch "paper_id" (MatchValue v)) =
                  [FieldMatch "paper_id" (MatchValue v)])
        by (unfold truthy, cond_if; rewrite Hv, Hv; reflexivity).
      unfold filter_of, conditions. rewrite E. eexists. reflexivity.
  - intros l Hl. split.
    + intros cs. unfold build_query_filter, truthy_list.
      cbn - [given given_list truthy cond_if bound_valid].
      rewrite Hl. reflexivity.
    + intros f Hf. apply build_query_filter_inv in Hf. subst f.
      assert (E : match given_list (if truthy_list (arxiv_categories a)
                                    then arxiv_categories a else categories a) with
                  | Some l0 => [FieldMatch "categories" (MatchAny l0)]
                  | None => []
                  end = [FieldMatch "categories" (MatchAny l)]).
      { rewrite resolved_categories_eq. unfold resolved_categories. rewrite Hl. reflexivity. }
      unfold filter_of, conditions. rewrite E, !app_assoc, match_snoc_some.
      eexists. reflexivity.
Qed.

Lemma build_query_filter_alias_override_witness :
  given (arxiv_id both_ids) = Some "2401.99999"%string /\
  build_query_filter dv_any (with_paper_id both_ids None) = build_query_filter dv_any both_ids /\
  (exists rest, Some (Filter [FieldMatch "paper_id" (MatchValue "2401.99999")]) =
     Some (Filter (FieldMatch "paper_id" (MatchValue "2401.99999") :: rest))).
Proof.
  split; [reflexivity|].
  destruct (proj1 (build_query_filter_alias_override dv_any both_ids) "2401.99999"%string)
    as [Hp Hrest]; [reflexivity|].
  split; [apply Hp|]. apply Hrest. reflexivity.
Defined.

End QueryClaims.

Module IndexClaims.
Import Index.
Local Open Scope string_scope.

Section Runs.
Variable collection_present : bool.
Variable process_arxiv :
  option string -> option string -> option string -> list event * result unit.
Variable process_biorxiv_medrxiv :
  string -> string -> string -> option string -> list event * result unit.
Variable process_chemrxiv : option string -> Z -> list event * result unit.

Abbreviation run := (index collection_present process_arxiv process_biorxiv_medrxiv
                       process_chemrxiv).

Lemma setup_no_ingestion :
  forallb (fun e => negb (ingestion_event e)) (setup collection_present) = true.
Proof. destruct collection_present; reflexivity. Qed.

(** C9 (amended): if the source is biorxiv or medrxiv and start_date or
    end_date is missing or empty, or if the source is none of arxiv,
    biorxiv, medrxiv and chemrxiv, [index] raises a ValueError. It does so
    after the fixed set-up (embedder, client, [_ensure_collection]) and
    before any fetcher is built and any fetch or upsert is made: its
    trace is exactly the set-up. *)
Theorem index_config_error (source : string) (start_date end_date query category : option string)
    (max_results : Z) :
  ((source = "biorxiv" \/ source = "medrxiv") /\
   (Query.given start_date = None \/ Query.given end_date = None)) \/
  ~ In source ["arxiv"; "biorxiv"; "medrxiv"; "chemrxiv"]%string ->
  fst (run source start_date end_date query category max_results) = setup collection_present /\
  forallb (fun e => negb (ingestion_event e))
          (fst (run source start_date end_date query category max_results)) = true /\
  exists msg, snd (run source start_date end_date query category max_results) =
              Raise (ValueError msg).
Proof.
  intros H.
  cut (fst (run source start_date end_date query category max_results) =
         setup collection_present /\
       exists msg, snd (run source start_date end_date query category max_results) =
                   Raise (ValueError msg)).
  { intros [Htr Hr]. rewrite Htr. split; [reflexivity|]. split; [apply setup_no_ingestion|exact Hr]. }
  unfold index. destruct H as [[[-> | ->] Hd] | Hn].
  - simpl. destruct Hd as [-> | ->];
      [|destruct (Query.given start_date)]; eauto.
  - simpl. destruct Hd as [-> | ->];
      [|destruct (Query.given start_date)]; eauto.
  - destruct (String.eqb_spec source "arxiv"); [subst; simpl in Hn; tauto|].
    destruct (String.eqb_spec source "biorxiv"); [subst; simpl in Hn; tauto|].
    destruct (String.eqb_spec source "medrxiv"); [subst; simpl in Hn; tauto|].
    destruct (String.eqb_spec source "chemrxiv"); [subst; simpl in Hn; tauto|].
    eauto.
Qed.

End Runs.

Definition no_run3 (_ _ _ : option string) : list event * result unit := ([Fetch; Upsert], Ok tt).
Definition no_run4 (_ _ _ : string) (_ : option string) : list event * result unit :=
  ([Fetch; Upsert], Ok tt).
Definition no_run2 (_ : option string) (_ : Z) : list event * result unit := ([Fetch; Upsert], Ok tt).

(** C9 (counterexample): [index] called for biorxiv without dates raises
    its ValueError only after [_ensure_collection] has asked the Qdrant
    server whether the collection exists; when the collection is missing
    it has also created it and its seven payload indexes, nine calls to
    the server in all. *)
Lemma index_missing_dates_after_store_call :
  index true no_run3 no_run4 no_run2 "biorxiv" None None None None 10000 =
    ([LoadModel; ClientInit; CollectionExists],
     Raise (ValueError "biorxiv requires start_date and end_date (YYYY-MM-DD)")) /\
  snd (index false no_run3 no_run4 no_run2 "biorxiv" None None None None 10000) =
    Raise (ValueError "biorxiv requires start_date and end_date (YYYY-MM-DD)") /\
  length (List.filter vector_store_call
            (fst (index false no_run3 no_run4 no_run2 "biorxiv" None None None None 10000))) = 9%nat.
Proof. repeat split. Qed.

Lemma index_config_error_witness :
  fst (index false no_run3 no_run4 no_run2 "medrxiv" (Some "2024-01-01"%string) (Some ""%string)
         None None 10000) = setup false /\
  forallb (fun e => negb (ingestion_event e))
    (fst (index false no_run3 no_run4 no_run2 "medrxiv" (Some "2024-01-01"%string)
            (Some ""%string) None None 10000)) = true /\
  exists msg, snd (index false no_run3 no_run4 no_run2 "medrxiv" (Some "2024-01-01"%string)
                     (Some ""%string) None None 10000) = Raise (ValueError msg).
Proof.
  apply (index_config_error false no_run3 no_run4 no_run2).
  left. split; [right; reflexivity|right; reflexivity].
Defined.

End IndexClaims.

Module TextFacts.
Import Text.

Definition token_ok (w : list Z) : Prop := w <> [] /\ Forall (fun c => is_space c = false) w.

(** Python: [" ".join(" \x1c a\x85b  ".split()) == "a b"]. *)
Example normalize_ws_sample : normalize_ws [32; 28; 32; 97; 133; 98; 32; 32] = [97; 32; 98].
Proof. reflexivity. Qed.

Lemma split_acc_tokens (cur s : list Z) :
  Forall (fun c => is_space c = false) cur -> Forall token_ok (split_acc cur s).
Proof.
  revert cur; induction s as [|c s IH]; intros cur Hcur; simpl.
  - destruct cur as [|x xs]; constructor; [|constructor].
    split; [intros H; apply (f_equal (@length Z)) in H; rewrite length_rev in H; simpl in H; lia|].
    apply Forall_rev. exact Hcur.
  - destruct (is_space c) eqn:Ec.
    + destruct cur as [|x xs]; [apply IH; constructor|].
      constructor; [|apply IH; constructor].
      split; [intros H; apply (f_equal (@length Z)) in H; rewrite length_rev in H; simpl in H; lia|].
      apply Forall_rev. exact Hcur.
    + apply IH. constructor; assumption.
Qed.

Lemma split_acc_concat (cur s : list Z) :
  concat (split_acc cur s) = rev cur ++ List.filter (fun c => negb (is_space c)) s.
Proof.
  revert cur; induction s as [|c s IH]; intros cur; simpl.
  - destruct cur; simpl; rewrite ?app_nil_r; reflexivity.
  - destruct (is_space c) eqn:Ec; simpl.
    + destruct cur as [|x xs]; [apply IH|]. simpl. rewrite IH. reflexivity.
    + rewrite IH. simpl. rewrite <- app_assoc. reflexivity.
Qed.

Lemma split_acc_word (cur w s : list Z) :
  Forall (fun c => is_space c = false) w -> split_acc cur (w ++ s) = split_acc (rev w ++ cur) s.
Proof.
  revert cur; induction w as [|c w IH]; intros cur Hw; simpl; [reflexivity|].
  inversion Hw as [|? ? Hc Hw']; subst. rewrite Hc, IH by exact Hw'.
  rewrite <- app_assoc. reflexivity.
Qed.

Lemma split_join (ws : list (list Z)) : Forall token_ok ws -> split (join [32] ws) = ws.
Proof.
  unfold split. induction ws as [|w ws IH]; intros Hws; [reflexivity|].
  inversion Hws as [|? ? [Hne Hw] Hws']; subst.
  destruct ws as [|w' ws'].
  - simpl. rewrite <- (app_nil_r w) at 1. rewrite split_acc_word by exact Hw.
    rewrite app_nil_r. simpl. destruct (rev w) eqn:Er.
    + apply (f_equal (@rev Z)) in Er. rewrite rev_involutive in Er. contradiction.
    + rewrite <- Er, rev_involutive. reflexivity.
  - change (join [32] (w :: w' :: ws')) with (w ++ [32] ++ join [32] (w' :: ws')).
    rewrite split_acc_word by exact Hw. rewrite app_nil_r.
    change ([32] ++ join [32] (w' :: ws')) with (32 :: join [32] (w' :: ws')).
    cbn [split_acc]. change (is_space 32) with true. cbv iota.
    destruct (rev w) eqn:Er.
    + apply (f_equal (@rev Z)) in Er. rewrite rev_involutive in Er. contradiction.
    + rewrite <- Er, rev_involutive, IH by exact Hws'. reflexivity.
Qed.

Lemma filter_join (ws : list (list Z)) :
  Forall token_ok ws ->
  List.filter (fun c => negb (is_space c)) (join [32] ws) = concat ws.
Proof.
  assert (Hw : forall w, Forall (fun c => is_space c = false) w ->
                 List.filter (fun c => negb (is_space c)) w = w).
  { induction w as [|c w IH]; intros H; [reflexivity|].
    inversion H; subst. simpl. rewrite H2. simpl. rewrite IH by assumption. reflexivity. }
  induction ws as [|w ws IH]; intros Hws; [reflexivity|].
  inversion Hws as [|? ? [_ Hw1] Hws']; subst.
  destruct ws as [|w' ws'].
  - simpl. rewrite app_nil_r. apply Hw, Hw1.
  - change (join [32] (w :: w' :: ws')) with (w ++ [32] ++ join [32] (w' :: ws')).
    rewrite !List.filter_app, Hw, IH by assumption. reflexivity.
Qed.

(** Where a whitespace character stands in [" ".join(ws)]. *)
Lemma join_spaces (ws : list (list Z)) :
  Forall token_ok ws ->
  forall a c b, join [32] ws = a ++ c :: b -> is_space c = true ->
    c = 32 /\
    (exists a' x, a = a' ++ [x] /\ is_space x = false) /\
    (exists x b', b = x :: b' /\ is_space x = false).
Proof.
  induction ws as [|w ws IH]; intros Hws a c b Heq Hc.
  - simpl in Heq. destruct a; discriminate.
  - inversion Hws as [|? ? [Hne Hw] Hws']; subst.
    assert (Hin : forall a b, w = a ++ c :: b -> False).
    { intros a0 b0 ->. apply Forall_app in Hw as [_ Hw]. inversion Hw; congruence. }
    destruct ws as [|w' ws'].
    + simpl in Heq. exact (False_ind _ (Hin _ _ Heq)).
    + change (join [32] (w :: w' :: ws')) with (w ++ 32 :: join [32] (w' :: ws')) in Heq.
      apply app_eq_app in Heq as [l [[Hw' Hr] | [Ha Hr]]].
      * (* [w] is [a ++ l] *)
        destruct l as [|y l].
        -- rewrite app_nil_r in Hw'. subst a. cbn [app] in Hr. injection Hr as Hc32 Hb.
           subst c b. split; [reflexivity|]. split.
           ++ destruct (exists_last Hne) as [a' [x Hax]]. exists a', x. split; [exact Hax|].
              rewrite Hax in Hw. apply Forall_app in Hw as [_ Hx]. inversion Hx; assumption.
           ++ inversion Hws' as [|? ? [Hne' Hw''] _]; subst.
              destruct w' as [|x w'']; [contradiction|].
              exists x, (w'' ++ match ws' with [] => [] | _ => [32] ++ join [32] ws' end).
              inversion Hw''; subst. split; [|assumption].
              destruct ws'; simpl; rewrite ?app_nil_r; reflexivity.
        -- cbn [app] in Hr. injection Hr as Hy Hl. subst y. exfalso. exact (Hin a l Hw').
      * (* [a] is [w ++ l]: the character is in [32 :: rest] *)
        destruct l as [|y l].
        -- rewrite app_nil_r in Ha. subst a. cbn [app] in Hr. injection Hr as Hc32 Hb.
           subst c b. split; [reflexivity|]. split.
           ++ destruct (exists_last Hne) as [a' [x ->]]. exists a', x. split; [reflexivity|].
              apply Forall_app in Hw as [_ Hx]. inversion Hx; assumption.
           ++ inversion Hws' as [|? ? [Hne' Hw''] _]; subst.
              destruct w' as [|x w'']; [contradiction|].
              exists x, (w'' ++ match ws' with [] => [] | _ => [32] ++ join [32] ws' end).
              inversion Hw''; subst. split; [|assumption].
              destruct ws'; simpl; rewrite ?app_nil_r; reflexivity.
        -- cbn [app] in Hr. injection Hr as Hy Hrest.
           destruct (IH Hws' l c b Hrest Hc) as [H1 [[a' [x [Hl Hx]]] H3]].
           split; [exact H1|]. split; [|exact H3].
           exists (w ++ y :: a'), x. rewrite Ha, Hl. split; [|exact Hx].
           rewrite <- app_assoc. reflexivity.
Qed.

Lemma split_tokens_ok (s : list Z) : Forall token_ok (split s).
Proof. apply split_acc_tokens. constructor. Qed.

(** [str.split()] cuts a string into words that are non-empty and hold no
    whitespace, and that, put end to end, give the string's
    non-whitespace characters in their order. *)
Theorem split_words (s : list Z) :
  Forall (fun w => w <> [] /\ Forall (fun c => is_space c = false) w) (split s) /\
  concat (split s) = List.filter (fun c => negb (is_space c)) s.
Proof.
  split; [apply split_tokens_ok|]. unfold split. rewrite split_acc_concat. reflexivity.
Qed.

(** [" ".join(s.split())] is idempotent: normalizing an already
    normalized text changes nothing. *)
Theorem normalize_ws_idempotent (s : list Z) : normalize_ws (normalize_ws s) = normalize_ws s.
Proof. unfold normalize_ws at 1. unfold normalize_ws. rewrite split_join by apply split_tokens_ok. reflexivity. Qed.

(** [" ".join(s.split())] keeps every non-whitespace character of [s], in
    order, and adds none. *)
Theorem normalize_ws_content (s : list Z) :
  List.filter (fun c => negb (is_space c)) (normalize_ws s) =
  List.filter (fun c => negb (is_space c)) s.
Proof.
  unfold normalize_ws. rewrite filter_join by apply split_tokens_ok.
  unfold split. rewrite split_acc_concat. reflexivity.
Qed.

(** In [" ".join(s.split())] the only whitespace is the plain space
    U+0020, and each one stands between two non-whitespace characters: no
    leading or trailing whitespace, no two spaces in a row. *)
Theorem normalize_ws_spaces (s a b : list Z) (c : Z) :
  normalize_ws s = a ++ c :: b -> is_space c = true ->
  c = 32 /\
  (exists a' x, a = a' ++ [x] /\ is_space x = false) /\
  (exists x b', b = x :: b' /\ is_space x = false).
Proof. intros H Hc. exact (join_spaces (split s) (split_tokens_ok s) a c b H Hc). Qed.

Lemma normalize_ws_spaces_witness :
  normalize_ws [32; 97; 9; 10; 98] = [97] ++ 32 :: [98] /\ is_space 32 = true /\
  (32 = 32 /\
   (exists a' x, [97] = a' ++ [x] /\ is_space x = false) /\
   (exists x b', [98] = x :: b' /\ is_space x = false)).
Proof.
  split; [reflexivity|]. split; [reflexivity|].
  apply (normalize_ws_spaces [32; 97; 9; 10; 98]); reflexivity.
Defined.

End TextFacts.

Module RetryExtra.
Import Retry RetryFacts RetryClaims Measures.

Lemma total_sleep_cons (e : event) (l : list event) :
  total_sleep (e :: l) =
  match e with Sleep (Fin q) => (Qmax 0 q + total_sleep l)%Q | _ => total_sleep l end.
Proof. reflexivity. Qed.

Lemma total_sleep_app (l1 l2 : list event) :
  total_sleep (l1 ++ l2) == total_sleep l1 + total_sleep l2.
Proof.
  induction l1 as [|e l1 IH]; [simpl; ring|].
  rewrite <- app_comm_cons, !total_sleep_cons.
  destruct e as [|[q| |]]; rewrite IH; ring.
Qed.

Lemma request_count_app (l1 l2 : list event) :
  request_count (l1 ++ l2) = (request_count l1 + request_count l2)%nat.
Proof. unfold request_count. rewrite List.filter_app, length_app. reflexivity. Qed.

Lemma waits_succ (b : Q) (k : nat) :
  waits b 0 (S (S k)) =
  waits b 0 (S k) ++ [Request k; Sleep (Fin (b * inject_Z (2 ^ Z.of_nat k)))].
Proof.
  unfold waits. replace (S (S k) - 1 - 0)%nat with (S k) by lia.
  replace (S k - 1 - 0)%nat with k by lia.
  rewrite seq_S, flat_map_app. simpl. rewrite ?app_nil_r. reflexivity.
Qed.

Lemma backoff_nonneg (b : Q) (i : Z) : (0 <= b)%Q -> 0 <= i -> (0 <= b * inject_Z (2 ^ i))%Q.
Proof.
  intros Hb Hi. apply Qmult_le_0_compat; [exact Hb|].
  change 0%Q with (inject_Z 0). rewrite <- Zle_Qle. apply Z.pow_nonneg. lia.
Qed.

Lemma waits_measures (b : Q) (k : nat) :
  (0 <= b)%Q ->
  request_count (waits b 0 (S k)) = k /\
  total_sleep (waits b 0 (S k)) == b * inject_Z (2 ^ Z.of_nat k - 1).
Proof.
  intros Hb. induction k as [|k [IHr IHs]].
  - split; [reflexivity|].
    change (total_sleep (waits b 0 1)) with 0%Q.
    change (inject_Z (2 ^ Z.of_nat 0 - 1)) with (inject_Z 0). ring.
  - rewrite waits_succ, request_count_app, total_sleep_app, IHr, IHs. split.
    + unfold request_count. simpl. lia.
    + rewrite !total_sleep_cons. change (total_sleep []) with 0%Q.
      assert (Hmax : Qmax 0 (b * inject_Z (2 ^ Z.of_nat k)) == b * inject_Z (2 ^ Z.of_nat k))
        by (apply Q.max_r, backoff_nonneg; [exact Hb|lia]).
      rewrite Hmax.
      rewrite Nat2Z.inj_succ, Z.pow_succ_r by lia.
      rewrite <- !Z.add_opp_r, !inject_Z_plus, !inject_Z_opp, inject_Z_mult. ring.
Qed.

(** A finite wait is the exact product. *)
Lemma wait_time_fin (b : Q) (i : nat) (q : Q) :
  wait_time b i = Ok (Fin q) -> q = (b * inject_Z (2 ^ Z.of_nat i))%Q.
Proof.
  unfold wait_time. destruct (1024 <=? i)%nat; [discriminate|].
  destruct (Qle_bool _ _); [destruct (Qle_bool _ _); discriminate|].
  intros H. injection H as <-. reflexivity.
Qed.

(** From attempt [a] on (with [a < N]), the loop sends at most [N - a]
    requests and sleeps at most [b * (2^(N-1) - 2^a)] seconds, unless a wait
    is +inf. *)
Lemma retry_loop_budget (server : nat -> outcome) (b : Q) (N : nat) (Hb : (0 <= b)%Q)
    (Hinf : forall i, (i + 1 < N)%nat -> wait_time b i <> Ok PosInf) :
  forall k a last, (a + k = N)%nat -> (1 <= k)%nat ->
  (request_count (fst (retry_loop server (Z.of_nat N) b k a last)) <= k)%nat /\
  (total_sleep (fst (retry_loop server (Z.of_nat N) b k a last)) <=
     b * inject_Z (2 ^ (Z.of_nat N - 1) - 2 ^ Z.of_nat a))%Q.
Proof.
  assert (Hmono : forall a, (a + 1 <= N)%nat ->
            (0 <= b * inject_Z (2 ^ (Z.of_nat N - 1) - 2 ^ Z.of_nat a))%Q).
  { intros a Ha. apply Qmult_le_0_compat; [exact Hb|].
    change 0%Q with (inject_Z 0). rewrite <- Zle_Qle.
    assert (2 ^ Z.of_nat a <= 2 ^ (Z.of_nat N - 1)) by (apply Z.pow_le_mono_r; lia). lia. }
  assert (Hone : forall k a last, (a + 1 <= N)%nat ->
            fst (retry_loop server (Z.of_nat N) b (S k) a last) = [Request a] ->
            (request_count (fst (retry_loop server (Z.of_nat N) b (S k) a last)) <= S k)%nat /\
            (total_sleep (fst (retry_loop server (Z.of_nat N) b (S k) a last)) <=
               b * inject_Z (2 ^ (Z.of_nat N - 1) - 2 ^ Z.of_nat a))%Q).
  { intros k a last Ha E. rewrite E. split; [unfold request_count; simpl; lia|].
    apply Hmono, Ha. }
  induction k as [|k IH]; intros a last HN Hk; [lia|].
  destruct (attempt_result server a) as [r|e] eqn:Ea.
  - apply Hone; [lia|]. rewrite retry_loop_final; [reflexivity|congruence].
  - destruct (caught e) eqn:Ec.
    + destruct e as [| |c| | |]; try discriminate Ec.
      pose proof (retry_loop_caught server b (Z.of_nat N) k a last c Ea) as E.
      destruct (Z.ltb_spec (Z.of_nat a) (Z.of_nat N - 1)) as [Hlt|Hge].
      * destruct (wait_time b a) as [[q| |]|e'] eqn:Ew.
        -- destruct (retry_loop server (Z.of_nat N) b k (S a) (Some (HTTPError c)))
             as [tr r] eqn:Er.
           destruct (IH (S a) (Some (HTTPError c))) as [IHr IHs]; [lia|lia|].
           rewrite Er in IHr, IHs. cbn [fst] in IHr, IHs.
           rewrite E. cbn [fst]. split; [unfold request_count in *; simpl; lia|].
           rewrite !total_sleep_cons. apply wait_time_fin in Ew. subst q.
           assert (Hmax : Qmax 0 (b * inject_Z (2 ^ Z.of_nat a)) == b * inject_Z (2 ^ Z.of_nat a))
             by (apply Q.max_r, backoff_nonneg; [exact Hb|lia]).
           rewrite Hmax.
           apply (Qplus_le_compat (b * inject_Z (2 ^ Z.of_nat a)) (b * inject_Z (2 ^ Z.of_nat a)))
             in IHs; [|apply Qle_refl].
           eapply Qle_trans; [exact IHs|].
           rewrite Nat2Z.inj_succ, Z.pow_succ_r by lia.
           rewrite <- !Z.add_opp_r, !inject_Z_plus, !inject_Z_opp, !inject_Z_mult.
           apply Qle_lteq. right. ring.
        -- exfalso. apply (Hinf a); [lia|exact Ew].
        -- destruct (retry_loop server (Z.of_nat N) b k (S a) (Some (HTTPError c)))
             as [tr r] eqn:Er.
           destruct (IH (S a) (Some (HTTPError c))) as [IHr IHs]; [lia|lia|].
           rewrite Er in IHr, IHs. cbn [fst] in IHr, IHs.
           rewrite E. cbn [fst]. split; [unfold request_count in *; simpl; lia|].
           rewrite !total_sleep_cons. eapply Qle_trans; [exact IHs|].
           rewrite !(Qmult_comm b). apply Qmult_le_compat_r; [|exact Hb].
           rewrite <- Zle_Qle. rewrite Nat2Z.inj_succ, Z.pow_succ_r by lia.
           assert (0 <= 2 ^ Z.of_nat a) by (apply Z.pow_nonneg; lia). lia.
        -- apply Hone; [lia|]. rewrite E. reflexivity.
      * apply Hone; [lia|]. rewrite E. reflexivity.
    + apply Hone; [lia|]. rewrite retry_loop_final; [reflexivity|].
      intros c Hc. rewrite Ea in Hc. injection Hc as ->. discriminate Ec.
Qed.

(** Back-off budget: for [max_retries >= 1], a non-negative
    [backoff_factor] and no wait that overflows to +inf, one
    [retry_request] call sends at most [max_retries] requests and sleeps
    at most [backoff_factor * (2 ** (max_retries - 1) - 1)] seconds in
    total (6 seconds with the defaults 3 and 2.0). *)
Theorem retry_request_budget (server : nat -> outcome) (max_retries : Z) (b : Q)
    (Hm : 1 <= max_retries) (Hb : (0 <= b)%Q)
    (Hinf : forall i, (i + 1 < Z.to_nat max_retries)%nat -> wait_time b i <> Ok PosInf) :
  (request_count (fst (retry_request server max_retries b)) <= Z.to_nat max_retries)%nat /\
  (total_sleep (fst (retry_request server max_retries b)) <=
    b * inject_Z (2 ^ (max_retries - 1) - 1))%Q.
Proof.
  destruct (retry_loop_budget server b (Z.to_nat max_retries) Hb Hinf
              (Z.to_nat max_retries) 0 None) as [Hr Hs]; [lia|lia|].
  rewrite Z2Nat.id in Hr, Hs by lia. unfold retry_request. split; [exact Hr|exact Hs].
Qed.

Lemma retry_request_budget_witness :
  (1 <= 3) /\ (0 <= 2 # 1)%Q /\
  (forall i, (i + 1 < Z.to_nat 3)%nat -> wait_time (2 # 1) i <> Ok PosInf) /\
  (request_count (fst (retry_request (fun _ => Resp (mk_response 503 0)) 3 (2 # 1))) <=
     Z.to_nat 3)%nat /\
  (total_sleep (fst (retry_request (fun _ => Resp (mk_response 503 0)) 3 (2 # 1))) <=
    (2 # 1) * inject_Z (2 ^ (3 - 1) - 1))%Q.
Proof.
  assert (Hinf : forall i, (i + 1 < Z.to_nat 3)%nat -> wait_time (2 # 1) i <> Ok PosInf).
  { intros i Hi. destruct i as [|[|i]]; [vm_compute; discriminate|vm_compute; discriminate|].
    simpl in Hi. lia. }
  split; [lia|]. split; [unfold Qle; simpl; lia|]. split; [exact Hinf|].
  apply retry_request_budget; [lia|unfold Qle; simpl; lia|exact Hinf].
Defined.

(** A server that fails every attempt with an [httpx.HTTPError] uses the
    whole budget: for [max_retries >= 1], a non-negative [backoff_factor]
    and finite waits, exactly [max_retries] requests and
    [backoff_factor * (2 ** (max_retries - 1) - 1)] seconds of sleep, and
    the call raises the last attempt's error. *)
Theorem retry_request_all_fail (server : nat -> outcome) (max_retries : Z) (b : Q)
    (Hm : 1 <= max_retries) (Hb : (0 <= b)%Q)
    (Hfin : forall i, (i + 1 < Z.to_nat max_retries)%nat -> finite_wait b i)
    (Hfail : forall i, (i < Z.to_nat max_retries)%nat ->
             exists c, attempt_result server i = Raise (HTTPError c)) :
  request_count (fst (retry_request server max_retries b)) = Z.to_nat max_retries /\
  total_sleep (fst (retry_request server max_retries b)) ==
    b * inject_Z (2 ^ (max_retries - 1) - 1) /\
  snd (retry_request server max_retries b) =
    Some (attempt_result server (Z.to_nat max_retries - 1)).
Proof.
  unfold retry_request.
  destruct (retry_loop_shape server b (Z.to_nat max_retries) (Z.to_nat max_retries) 0 None)
    as [n [Hn [Htr [_ [Hres Hlast]]]]]; [lia|lia|intros i _ Hi; apply Hfin; exact Hi|].
  rewrite Z2Nat.id in Htr, Hres by lia.
  destruct (Hfail (n - 1)%nat ltac:(lia)) as [c Hc].
  pose proof (Hlast c Hc) as Hnm.
  rewrite Htr, Hres, <- Hnm. destruct n as [|k]; [lia|].
  destruct (waits_measures b k Hb) as [Hr Hs].
  rewrite request_count_app, total_sleep_app, Hr, Hs.
  split; [unfold request_count; simpl; lia|]. split; [|reflexivity].
  replace (max_retries - 1) with (Z.of_nat k) by lia.
  change (total_sleep [Request (S k - 1)]) with 0%Q. ring.
Qed.

Lemma retry_request_all_fail_witness :
  request_count (fst (retry_request (fun _ => Resp (mk_response 503 0)) 3 (2 # 1))) = 3%nat /\
  total_sleep (fst (retry_request (fun _ => Resp (mk_response 503 0)) 3 (2 # 1))) ==
    (2 # 1) * inject_Z (2 ^ (3 - 1) - 1) /\
  snd (retry_request (fun _ => Resp (mk_response 503 0)) 3 (2 # 1)) =
    Some (attempt_result (fun _ => Resp (mk_response 503 0)) (Z.to_nat 3 - 1)).
Proof.
  apply retry_request_all_fail; [lia|unfold Qle; simpl; lia| |].
  - intros i Hi. destruct i as [|[|i]]; [vm_compute; reflexivity|vm_compute; reflexivity|].
    simpl in Hi. lia.
  - intros i _. exists 503. reflexivity.
Defined.

End RetryExtra.

Module BiorxivExtra.
Import Biorxiv BiorxivClaims.

Section Chain.
Variable Item : Type.
Variable server : nat -> Z -> answer Item.
(** Pages [0 .. k-1] each hold a non-empty [collection] and a message of
    type "cursor_value" naming the next cursor [cur i]; the request for
    page [k] fails. *)
Variable coll : nat -> list Item.
Variable msgs : nat -> list message.
Variable cur : nat -> Z.
Variable k : nat.

Definition cursor_at (i : nat) : Z := match i with O => 0 | S j => cur j end.

Hypothesis Hpages : forall i, (i < k)%nat ->
  server i (cursor_at i) = Answer (coll i) (msgs i) /\ coll i <> [] /\
  exists m, find is_cursor_message (msgs i) = Some m /\ msg_cursor m = cur i.
Hypothesis Herror : server k (cursor_at k) = AnswerError.

Lemma fetch_loop_chain (d i fuel : nat) :
  (i + d = k)%nat -> (d < fuel)%nat ->
  fetch_loop Item server fuel i (cursor_at i) =
  (map cursor_at (seq i (S d)), concat (map coll (seq i d)), true).
Proof.
  revert i fuel; induction d as [|d IH]; intros i fuel Hi Hf;
    (destruct fuel as [|fuel]; [lia|]); cbn [fetch_loop].
  - replace i with k by lia. rewrite Herror. reflexivity.
  - destruct (Hpages i ltac:(lia)) as [Hs [Hne [m [Hm Hc]]]].
    rewrite Hs. destruct (coll i) as [|x xs] eqn:Ec; [contradiction|].
    rewrite Hm, Hc. change (cur i) with (cursor_at (S i)).
    rewrite (IH (S i) fuel) by lia. simpl. rewrite Ec. reflexivity.
Qed.

End Chain.

(** A failed request ends the stream without undoing it: when pages
    [0 .. k-1] each carry records and a "cursor_value" message and the
    request for page [k] fails (retries exhausted, or a body that is not
    JSON), [fetch_papers] has requested cursor 0 and then each page's
    announced cursor, has yielded every record of pages [0 .. k-1] in
    order, and stops normally. *)
Theorem fetch_papers_error_keeps_pages (Item : Type) (server : nat -> Z -> answer Item)
    (coll : nat -> list Item) (msgs : nat -> list message) (cur : nat -> Z) (k fuel : nat)
    (Hpages : forall i, (i < k)%nat ->
       server i (cursor_at cur i) = Answer (coll i) (msgs i) /\ coll i <> [] /\
       exists m, find is_cursor_message (msgs i) = Some m /\ msg_cursor m = cur i)
    (Herror : server k (cursor_at cur k) = AnswerError)
    (Hfuel : (k < fuel)%nat) :
  fetch_papers Item server fuel =
  (map (cursor_at cur) (seq 0 (S k)), concat (map coll (seq 0 k)), true).
Proof. exact (fetch_loop_chain Item server coll msgs cur k Hpages Herror k 0 fuel eq_refl Hfuel). Qed.

Definition failing_third : nat -> Z -> answer nat :=
  fun n c => match n with
             | O => Answer [1; 2]%nat [mk_message (Some "cursor_value"%string) 2]
             | 1%nat => Answer [3]%nat [mk_message None 7; mk_message (Some "cursor_value"%string) 3]
             | _ => AnswerError
             end.

Lemma fetch_papers_error_keeps_pages_witness :
  fetch_papers nat failing_third 5 =
  (map (cursor_at (fun i => match i with O => 2 | _ => 3 end)) (seq 0 3),
   concat (map (fun i => match i with O => [1; 2] | 1 => [3] | _ => [] end)%nat (seq 0 2)),
   true).
Proof.
  apply (fetch_papers_error_keeps_pages nat failing_third
           (fun i => match i with O => [1; 2] | 1 => [3] | _ => [] end)%nat
           (fun i => match i with
                     | O => [mk_message (Some "cursor_value"%string) 2]
                     | _ => [mk_message None 7; mk_message (Some "cursor_value"%string) 3]
                     end)
           (fun i => match i with O => 2 | _ => 3 end) 2 5).
  - intros i Hi. destruct i as [|[|i]]; [| |lia].
    + split; [reflexivity|]. split; [discriminate|]. eexists. split; reflexivity.
    + split; [reflexivity|]. split; [discriminate|]. eexists. split; reflexivity.
  - reflexivity.
  - lia.
Defined.

(** The loop has no guard against a server that keeps announcing a next
    cursor: if every answer holds records and a "cursor_value" message
    (for instance the same cursor again and again), no amount of
    iterations ends the loop, and every iteration yields records. *)
Theorem fetch_loop_never_ends (Item : Type) (server : nat -> Z -> answer Item)
    (Hcursor : forall n c, exists x xs ms m,
       server n c = Answer (x :: xs) ms /\ find is_cursor_message ms = Some m) :
  forall fuel n cursor,
    snd (fetch_loop Item server fuel n cursor) = false /\
    (fuel <= length (snd (fst (fetch_loop Item server fuel n cursor))))%nat.
Proof.
  induction fuel as [|fuel IH]; intros n cursor; [simpl; lia|].
  cbn [fetch_loop]. destruct (Hcursor n cursor) as [x [xs [ms [m [Hs Hm]]]]].
  rewrite Hs, Hm. destruct (IH (S n) (msg_cursor m)) as [H1 H2].
  destruct (fetch_loop Item server fuel (S n) (msg_cursor m)) as [[cs ys] fin].
  simpl in *. rewrite length_app. simpl. split; [exact H1|lia].
Qed.

Definition same_cursor_server : nat -> Z -> answer unit :=
  fun _ _ => Answer [tt] [mk_message (Some "cursor_value"%string) 0].

Lemma fetch_loop_never_ends_witness :
  snd (fetch_loop unit same_cursor_server 50 0 0) = false /\
  (50 <= length (snd (fst (fetch_loop unit same_cursor_server 50 0 0))))%nat.
Proof.
  apply fetch_loop_never_ends.
  intros n c. exists tt, [], [mk_message (Some "cursor_value"%string) 0].
  eexists. split; reflexivity.
Defined.

End BiorxivExtra.

Module ChemrxivExtra.
Import Chemrxiv ChemrxivFacts.

(** A server that answers [GET /items?limit=l&skip=s] with the items
    [s .. s+l-1] of a fixed list [db], as the API's documentation has it. *)
Definition serve_db {Item : Type} (db : list Item) : nat -> Z -> Z -> page Item :=
  fun _ l s => Page (firstn (Z.to_nat l) (skipn (Z.to_nat s) db)).

Lemma firstn_add {A} (a b : nat) (l : list A) :
  firstn (a + b) l = firstn a l ++ firstn b (skipn a l).
Proof.
  revert l; induction a as [|a IH]; intros l; [reflexivity|].
  destruct l as [|x l]; simpl; [destruct b; reflexivity|]. rewrite IH. reflexivity.
Qed.

Section Db.
Variable Item : Type.
Variable db : list Item.
Variables limit page_size : Z.
Hypothesis Hps : 1 <= page_size.

Lemma fetch_loop_db (fuel n s : nat) :
  (Z.to_nat (limit - Z.of_nat s) < fuel)%nat ->
  snd (fst (fetch_loop Item (serve_db db) limit page_size fuel n (Z.of_nat s))) =
    firstn (Z.to_nat limit - s) (skipn s db) /\
  snd (fetch_loop Item (serve_db db) limit page_size fuel n (Z.of_nat s)) = true.
Proof.
  revert n s; induction fuel as [|fuel IH]; intros n s Hf; [lia|].
  cbn [fetch_loop]. destruct (Z.of_nat s <? limit) eqn:Elt.
  2:{ apply Z.ltb_ge in Elt. replace (Z.to_nat limit - s)%nat with O by lia. split; reflexivity. }
  apply Z.ltb_lt in Elt.
  set (L := Z.min page_size (limit - Z.of_nat s)).
  assert (HL : (1 <= Z.to_nat L)%nat) by (unfold L; lia).
  cbn [fst snd].
  replace (serve_db db n L (Z.of_nat s)) with (Page (firstn (Z.to_nat L) (skipn s db)))
    by (unfold serve_db; rewrite Nat2Z.id; reflexivity).
  set (X := skipn s db).
  destruct (firstn (Z.to_nat L) X) as [|it its] eqn:EP.
  { (* an empty page: the list is exhausted *)
    destruct X as [|x xs] eqn:EX; [|destruct (Z.to_nat L); [lia|discriminate]].
    split; [|reflexivity]. simpl. destruct (Z.to_nat limit - s)%nat; reflexivity. }
  rewrite <- EP.
  assert (Hlen : length (firstn (Z.to_nat L) X) = Nat.min (Z.to_nat L) (length X))
    by apply length_firstn.
  destruct (Z.of_nat (length (firstn (Z.to_nat L) X)) <? page_size) eqn:Eshort.
  - (* a short page ends the loop *)
    apply Z.ltb_lt in Eshort. split; [|reflexivity]. simpl.
    destruct (Nat.lt_ge_cases (length X) (Z.to_nat L)) as [Hx|Hx].
    + rewrite !firstn_all2 by (unfold L in *; lia). reflexivity.
    + replace (Z.to_nat L) with (Z.to_nat limit - s)%nat by (unfold L in *; lia). reflexivity.
  - apply Z.ltb_ge in Eshort.
    assert (Hfull : Z.to_nat L = Z.to_nat page_size /\ (Z.to_nat page_size <= length X)%nat)
      by (unfold L in *; lia).
    destruct Hfull as [HLp HX].
    replace (Z.of_nat s + Z.of_nat (length (firstn (Z.to_nat L) X)))
      with (Z.of_nat (s + Z.to_nat page_size)) by lia.
    destruct (IH (S n) (s + Z.to_nat page_size)%nat ltac:(lia)) as [H1 H2].
    destruct (fetch_loop Item (serve_db db) limit page_size fuel (S n) _) as [[reqs ys] fin].
    simpl in H1, H2 |- *. split; [|exact H2].
    rewrite H1. rewrite HLp. unfold X.
    replace (Z.to_nat limit - s)%nat
      with (Z.to_nat page_size + (Z.to_nat limit - (s + Z.to_nat page_size)))%nat
      by (unfold L in *; lia).
    rewrite firstn_add, skipn_skipn. f_equal. f_equal. f_equal. lia.
Qed.
End Db.

(** Against a server that pages a fixed list faithfully, [fetch_papers]
    with a positive [page_size] yields exactly the first [limit] items of
    the list (all of it when it is shorter), in order, and ends normally. *)
Theorem fetch_papers_serve_db (Item : Type) (db : list Item) (limit page_size : Z) (fuel : nat)
    (Hps : 1 <= page_size) (Hfuel : (Z.to_nat limit < fuel)%nat) :
  snd (fst (fetch_papers Item (serve_db db) limit page_size fuel)) = firstn (Z.to_nat limit) db /\
  snd (fetch_papers Item (serve_db db) limit page_size fuel) = true.
Proof.
  unfold fetch_papers. destruct (fetch_loop_db Item db limit page_size Hps fuel 0 0) as [H1 H2].
  - simpl. rewrite Z.sub_0_r. exact Hfuel.
  - rewrite Nat.sub_0_r in H1. split; assumption.
Qed.

Lemma fetch_papers_serve_db_witness :
  snd (fst (fetch_papers nat (serve_db (seq 0 250)) 180 100 200)) = firstn 180 (seq 0 250) /\
  snd (fetch_papers nat (serve_db (seq 0 250)) 180 100 200) = true.
Proof. apply (fetch_papers_serve_db nat (seq 0 250) 180 100 200); [lia|apply Nat.ltb_lt; vm_compute; reflexivity]. Defined.

Lemma fetch_loop_bounded (Item : Type) (server : nat -> Z -> Z -> page Item) (limit page_size : Z)
    (Hhonest : forall n l s items, server n l s = Page items -> Z.of_nat (length items) <= Z.max 0 l) :
  forall fuel n cursor,
    Z.of_nat (length (snd (fst (fetch_loop Item server limit page_size fuel n cursor)))) <=
    Z.max 0 (limit - cursor).
Proof.
  induction fuel as [|fuel IH]; intros n cursor; cbn [fetch_loop]; [simpl; lia|].
  destruct (cursor <? limit) eqn:Elt; [apply Z.ltb_lt in Elt|simpl; lia].
  destruct (server n _ _) as [|items] eqn:Es; [simpl; lia|].
  pose proof (Hhonest _ _ _ _ Es) as Hl. cbn [fst snd] in Hl.
  destruct items as [|it its]; [simpl; lia|].
  destruct (_ <? page_size); [simpl in *; lia|].
  specialize (IH (S n) (cursor + Z.of_nat (length (it :: its)))).
  destruct (fetch_loop Item server limit page_size fuel (S n) _) as [[reqs ys] fin].
  simpl in IH |- *. rewrite length_app. simpl length in *. lia.
Qed.

(** If the server never returns more items than the [limit] parameter of
    the request asks for, [fetch_papers] yields at most [limit] items (none
    when [limit <= 0]). *)
Theorem fetch_papers_at_most_limit (Item : Type) (server : nat -> Z -> Z -> page Item)
    (limit page_size : Z) (fuel : nat)
    (Hhonest : forall n l s items, server n l s = Page items -> Z.of_nat (length items) <= Z.max 0 l) :
  (length (snd (fst (fetch_papers Item server limit page_size fuel))) <= Z.to_nat limit)%nat.
Proof.
  pose proof (fetch_loop_bounded Item server limit page_size Hhonest fuel 0 0) as H.
  unfold fetch_papers. lia.
Qed.

Lemma fetch_papers_at_most_limit_witness :
  (length (snd (fst (fetch_papers nat (serve_db (seq 0 250)) 120 50 10))) <= Z.to_nat 120)%nat.
Proof.
  apply fetch_papers_at_most_limit. intros n l s items Hs. injection Hs as <-.
  rewrite length_firstn. lia.
Defined.

End ChemrxivExtra.

Module IngestExtra.
Import PointId Ingest IngestFacts Measures.

Section Store.
Variable Paper : Type.
Variable paper_id : Paper -> list Z.
Variable Vec : Type.
Variable encode_documents : list Paper -> list Vec.

Abbreviation world := (Ingest.world Paper Vec).
Abbreviation point := (Ingest.point Paper Vec).
Abbreviation upsert_chunk := (Ingest.upsert_chunk Paper paper_id Vec encode_documents).
Abbreviation process_loop := (Ingest.process_loop Paper paper_id Vec encode_documents).
Abbreviation process := (Ingest.process Paper paper_id Vec encode_documents).

(** A point whose id is the one computed from its payload's paper_id. *)
Definition pt_ok (pt : point) : Prop :=
  let '(i, _, p) := pt in get_point_id (paper_id p) = Ok i.

Lemma make_points_wf (pe : list (Paper * Vec)) (pts : list point) :
  make_points Paper paper_id Vec pe = Ok pts -> Forall pt_ok pts.
Proof.
  revert pts; induction pe as [|[p v] pe IH]; intros pts H; simpl in H.
  - injection H as <-. constructor.
  - destruct (get_point_id (paper_id p)) as [i|e] eqn:Ei; [|discriminate].
    destruct (make_points Paper paper_id Vec pe) as [pts'|e]; [|discriminate].
    injection H as <-. constructor; [exact Ei|apply IH; reflexivity].
Qed.

Lemma upsert_chunk_wf (chunk : list Paper) :
  exists log r, oblivious Paper Vec (upsert_chunk chunk) log r /\ Forall (Forall pt_ok) log.
Proof.
  unfold Ingest.upsert_chunk. destruct chunk as [|p ps].
  - exists [], (Ok tt). split; [apply ret_oblivious|constructor].
  - destruct (make_points _ _ _ _) as [pts|e] eqn:Ep.
    + exists [pts], (Ok tt). split; [apply client_upsert_oblivious|].
      constructor; [exact (make_points_wf _ _ Ep)|constructor].
    + exists [], (Raise e). split; [apply raise_oblivious|constructor].
Qed.

Lemma process_loop_wf (papers chunk : list Paper) :
  exists log r, oblivious Paper Vec (process_loop chunk papers) log r /\ Forall (Forall pt_ok) log.
Proof.
  revert chunk; induction papers as [|p rest IH]; intros chunk; cbn [Ingest.process_loop].
  - destruct chunk; [exists [], (Ok tt); split; [apply ret_oblivious|constructor]|].
    apply upsert_chunk_wf.
  - destruct (CHUNK_SIZE <=? length (chunk ++ [p]))%nat; [|apply IH].
    destruct (upsert_chunk_wf (chunk ++ [p])) as [l1 [[u|e] [H1 W1]]].
    + destruct u. destruct (IH []) as [l2 [r [H2 W2]]].
      exists (l1 ++ l2), r. split; [apply bind_oblivious_ok with (a := tt); assumption|].
      apply Forall_app. split; assumption.
    + exists l1, (Raise e). split; [apply bind_oblivious_raise; assumption|exact W1].
Qed.

Lemma oblivious_log_unique {A} (m : Ingest.M Paper Vec A) l1 l2 r1 r2 :
  oblivious Paper Vec m l1 r1 -> oblivious Paper Vec m l2 r2 -> l1 = l2 /\ r1 = r2.
Proof.
  intros H1 H2. specialize (H1 (mk_world Paper Vec ∅ [])). rewrite H2 in H1.
  split.
  - apply (f_equal (fun x => upsert_log Paper Vec (fst x))) in H1. simpl in H1. congruence.
  - apply (f_equal snd) in H1. simpl in H1. congruence.
Qed.

Lemma insert_points_lookup (pts : list point) (m : gmap Z (Vec * Paper)) (k : Z) :
  Forall pt_ok pts ->
  snd <$> insert_points Paper Vec pts m !! k =
  match last_with_id Paper paper_id k (map (point_payload Paper Vec) pts) with
  | Some p => Some p
  | None => snd <$> m !! k
  end.
Proof.
  revert m; induction pts as [|[[i v] p] pts IH]; intros m Hok; [reflexivity|].
  inversion Hok as [|? ? Hi Hok']; subst. simpl in Hi.
  unfold Ingest.insert_points. cbn [fold_left]. fold (insert_points Paper Vec pts (<[i:=(v, p)]> m)).
  rewrite (IH _ Hok'). cbn [map last_with_id].
  change (point_payload Paper Vec (i, v, p)) with p. rewrite Hi.
  destruct (last_with_id Paper paper_id k _); [reflexivity|].
  destruct (Z.eqb_spec i k) as [->|Hne].
  - rewrite lookup_insert. case_decide; [reflexivity|congruence].
  - rewrite lookup_insert_ne by congruence. reflexivity.
Qed.

(** Overwrite by id, last record wins: when the embedder returns one vector
    per record and every record's point id can be computed, a run of
    [_process_*] over a record stream succeeds, and afterwards the payload
    stored under any point id [k] is the last record of the stream whose id
    is [k]; ids the stream does not produce keep what the store held. *)
Theorem process_last_write_wins
    (Hlen : forall c, length (encode_documents c) = length c)
    (papers : list Paper) (Hids : Forall (fun p => exists i, get_point_id (paper_id p) = Ok i) papers)
    (w : world) (k : Z) :
  snd (process papers w) = Ok tt /\
  snd <$> store Paper Vec (fst (process papers w)) !! k =
  match last_with_id Paper paper_id k papers with
  | Some p => Some p
  | None => snd <$> store Paper Vec w !! k
  end.
Proof.
  destruct (process_loop_batches Paper paper_id Vec encode_documents Hlen papers [])
    as [log1 [H1 [Hpay _]]]; [unfold CHUNK_SIZE; simpl; lia|exact Hids|].
  destruct (process_loop_wf papers []) as [log2 [r2 [H2 W2]]].
  destruct (oblivious_log_unique _ _ _ _ _ H1 H2) as [<- <-].
  unfold Ingest.process. rewrite H1. split; [reflexivity|]. cbn [fst apply_log store].
  rewrite fold_upserts_concat, insert_points_lookup by (apply Forall_concat; exact W2).
  rewrite concat_map. simpl in Hpay. rewrite Hpay. reflexivity.
Qed.

End Store.

(** Records are pairs (paper_id, version); the first and third share a
    paper_id, the second has another one. The store ends with the third. *)
Lemma process_last_write_wins_witness :
  let papers := [([], 0%nat); ([97], 1%nat); ([], 2%nat)] in
  let w := mk_world (list Z * nat) unit ∅ [] in
  snd (Ingest.process _ fst unit (map (fun _ => tt)) papers w) = Ok tt /\
  snd <$> store _ _ (fst (Ingest.process _ fst unit (map (fun _ => tt)) papers w))
    !! 6061155539545534981 = Some ([], 2%nat).
Proof.
  intros papers w.
  assert (Hlen : forall c : list (list Z * nat), length (map (fun _ => tt) c) = length c)
    by (intros c; apply length_map).
  assert (Hids : Forall (fun p : list Z * nat => exists i, get_point_id (fst p) = Ok i) papers).
  { repeat constructor.
    - exists 6061155539545534981. vm_compute. reflexivity.
    - exists 919145239626757800. vm_compute. reflexivity.
    - exists 6061155539545534981. vm_compute. reflexivity. }
  destruct (process_last_write_wins (list Z * nat) fst unit (map (fun _ => tt)) Hlen
              papers Hids w 6061155539545534981) as [H1 H2].
  split; [exact H1|]. rewrite H2. vm_compute. reflexivity.
Defined.
End IngestExtra.

Module ArxivExtra.
Import Arxiv ArxivFacts Measures.

Ltac date_cases :=
  repeat match goal with
  | |- context [?a <? ?b] => destruct (Z.ltb_spec a b)
  | |- context [?a =? ?b] => destruct (Z.eqb_spec a b)
  end; simpl; try reflexivity; lia.

Lemma passes_one_day (d : date) (p : paper) :
  passes (Some d) (Some d) None p = date_eqb (update_date p) d.
Proof.
  unfold passes, date_lt, date_eqb.
  destruct (update_date p) as [y m dd], d as [y' m' d']; cbn [year month day].
  rewrite !andb_true_r. date_cases.
Qed.

Lemma passes_reversed_window (s e : date) (category : option string) (p : paper) :
  date_lt e s = true -> passes (Some s) (Some e) category p = false.
Proof.
  unfold passes, date_lt.
  destruct (update_date p) as [y m dd], s as [y1 m1 d1], e as [y2 m2 d2]; cbn [year month day].
  intros H. revert H. date_cases.
Qed.

Lemma scan_none (start end_ : option date) (category : option string) (limit count : Z)
    (lines : list paper) :
  Forall (fun p => passes start end_ category p = false) lines ->
  scan start end_ category limit count lines = [].
Proof.
  revert count; induction lines as [|p rest IH]; intros count H; [reflexivity|].
  inversion H as [|? ? Hp Hrest]; subst. simpl. rewrite Hp. apply IH, Hrest.
Qed.

(** Same start and end date: for a positive [limit], the fetcher yields,
    in file order, the first [limit] records whose [update_date] is that day
    (year, month and day equal), and no other record. *)
Theorem fetch_papers_one_day (d : date) (limit : Z) (lines : list paper) :
  1 <= limit ->
  fetch_papers (Some d) (Some d) None limit lines =
  firstn (Z.to_nat limit) (List.filter (fun p => date_eqb (update_date p) d) lines).
Proof.
  intros H. rewrite fetch_papers_firstn by exact H. f_equal.
  apply filter_ext. intros p. apply passes_one_day.
Qed.

Lemma fetch_papers_one_day_witness :
  1 <= 10 /\
  fetch_papers (Some (mk_date 2023 6 1)) (Some (mk_date 2023 6 1)) None 10
    [rec_2023_01; rec_2023_06; rec_2024_01; rec_2023_06] =
  [rec_2023_06; rec_2023_06].
Proof.
  split; [lia|]. rewrite fetch_papers_one_day by lia. reflexivity.
Defined.

(** A start date after the end date: no record passes both date tests, so
    the fetcher yields nothing, whatever the category and the limit (also
    for [limit <= 0]). *)
Theorem fetch_papers_reversed_window (s e : date) (category : option string) (limit : Z)
    (lines : list paper) :
  date_lt e s = true ->
  fetch_papers (Some s) (Some e) category limit lines = [].
Proof.
  intros H. unfold fetch_papers. apply scan_none.
  apply Forall_forall. intros p _. apply passes_reversed_window, H.
Qed.

Lemma fetch_papers_reversed_window_witness :
  date_lt (mk_date 2023 1 1) (mk_date 2024 1 1) = true /\
  fetch_papers (Some (mk_date 2024 1 1)) (Some (mk_date 2023 1 1)) None 0
    [rec_2023_01; rec_2023_06; rec_2024_01] = [].
Proof.
  split; [reflexivity|]. apply fetch_papers_reversed_window. reflexivity.
Defined.
End ArxivExtra.
